(** * The SIR notebooks of ModSimPy (code/chap12.ipynb, code/chap14.ipynb)

    A shallow embedding of the functions the two notebooks define: the
    Kermack-McKendrick update rule, the simulation loop, the summary, the
    two transforms (immunization, hand washing) and the parameter sweeps.

    Python floats are read as real numbers (exact arithmetic), integer time
    stamps as [Z].  A lookup that raises [KeyError] in Python is [None]
    here, and a function that can raise returns an [option]. *)

From Stdlib Require Import Reals ZArith List Lia Lra Bool.
Import ListNotations.

Local Open Scope R_scope.

(** ** The error monad of the embedding *)

Definition bind {A B : Type} (c : option A) (k : A -> option B) : option B :=
  match c with
  | Some a => k a
  | None => None
  end.

Notation "x <- c ;; k" := (bind c (fun x => k))
  (at level 61, c at next level, right associativity).

(** ** Data model *)

(** Modelled from the spec: modsim's [State] (a pandas Series with the labels
    S, I, R) is not among the sources; the spec describes it as an ordered
    triple of real numbers. *)
Module State.
Record t : Type := mk { S : R; I : R; R : R }.
End State.

(** [sum(init)] and [init /= x] on a State: pandas works element by element. *)
Definition State_sum (st : State.t) : R :=
  State.S st + State.I st + State.R st.

Definition State_div (st : State.t) (x : R) : State.t :=
  State.mk (State.S st / x) (State.I st / x) (State.R st / x).

(** Modelled from the spec: modsim's [System] is not among the sources; the
    spec describes it as a bundle of the initial State, the two integer time
    stamps and the two rates. *)
Module System.
Record t : Type := mk {
  init : State.t;
  t0 : Z;
  t_end : Z;
  beta : R;
  gamma : R
}.
End System.

(** Modelled from the spec: modsim's [TimeFrame] (a pandas DataFrame) is not
    among the sources; the spec describes it as an ordered sequence of States
    indexed by integer day, built one entry at a time.  [row_set] is the
    assignment [frame.row[t] = state] (the row labelled [t] is replaced where
    there is one, and appended otherwise), [row_get] the read [frame.row[t]]
    and [S_at] the read [frame.S[t]]. *)
Module TimeFrame.
Definition t : Type := list (Z * State.t).

Definition empty : t := [].

Fixpoint row_get (k : Z) (f : t) : option State.t :=
  match f with
  | [] => None
  | (k', st) :: f' => if Z.eqb k' k then Some st else row_get k f'
  end.

Fixpoint row_set (k : Z) (st : State.t) (f : t) : t :=
  match f with
  | [] => [(k, st)]
  | (k', st') :: f' =>
      if Z.eqb k' k then (k', st) :: f' else (k', st') :: row_set k st f'
  end.

Definition S_at (k : Z) (f : t) : option R :=
  option_map State.S (row_get k f).

Definition index (f : t) : list Z := map fst f.
End TimeFrame.

(** Modelled from the spec: modsim's [SweepSeries] (a pandas Series) is not
    among the sources; the spec describes it as a mapping from a parameter
    value to a summary, with the keys in the order swept.  [set] is the
    assignment [sweep[k] = v]: as for every Python mapping, the entry of a
    key that is already there is overwritten in place, a new key is
    appended. *)
Module SweepSeries.
Definition t : Type := list (R * R).

Definition empty : t := [].

Fixpoint get (k : R) (s : t) : option R :=
  match s with
  | [] => None
  | (k', v) :: s' => if Req_dec_T k' k then Some v else get k s'
  end.

Fixpoint set (k v : R) (s : t) : t :=
  match s with
  | [] => [(k, v)]
  | (k', v') :: s' =>
      if Req_dec_T k' k then (k', v) :: s' else (k', v') :: set k v s'
  end.

Definition keys (s : t) : list R := map fst s.
Definition values (s : t) : list R := map snd s.
End SweepSeries.

(** Modelled from the spec: modsim's [SweepFrame] (a pandas DataFrame) is not
    among the sources; the spec describes it as a two-dimensional table with
    rows indexed by one swept parameter and columns by the other.  The table
    is kept rectangular: [index] holds the row labels and every column one
    cell per row label, [None] being a missing value.  [create] is
    [SweepFrame(columns=cs)], a table with the given columns and no row, and
    [set_column] is the assignment [frame[c] = series]: a table without rows
    takes the row labels of a series that has some, the series is read at the
    row labels of the table, and every column labelled [c] receives it (a
    label that is not there yet gets a new column). *)
Module SweepFrame.
Record t : Type := mk {
  index : list R;
  columns : list (R * list (option R))
}.

Definition create (cs : list R) : t :=
  mk [] (map (fun c => (c, [])) cs).

Definition reindex (idx : list R) (s : SweepSeries.t) : list (option R) :=
  map (fun k => SweepSeries.get k s) idx.

Definition ensure_index (s : SweepSeries.t) (f : t) : t :=
  match index f, s with
  | [], _ :: _ =>
      let idx := SweepSeries.keys s in
      mk idx (map (fun col => (fst col, map (fun _ => None) idx)) (columns f))
  | _, _ => f
  end.

Definition has_label (c : R) (col : R * list (option R)) : bool :=
  if Req_dec_T (fst col) c then true else false.

Definition assign (c : R) (cells : list (option R))
    (cols : list (R * list (option R))) : list (R * list (option R)) :=
  if existsb (has_label c) cols
  then map (fun col => if has_label c col then (fst col, cells) else col) cols
  else cols ++ [(c, cells)].

Definition set_column (c : R) (s : SweepSeries.t) (f : t) : t :=
  let f := ensure_index s f in
  mk (index f) (assign c (reindex (index f) s) (columns f)).

(** [frame[c]]: the column labelled [c], as pairs of row label and cell. *)
Definition get_column (c : R) (f : t) : option (list (R * option R)) :=
  option_map (fun col => combine (index f) (snd col))
    (find (has_label c) (columns f)).

Fixpoint lookup (a : R) (col : list (R * option R)) : option (option R) :=
  match col with
  | [] => None
  | (a', v) :: col' => if Req_dec_T a' a then Some v else lookup a col'
  end.

(** [frame[c][a]]: the cell in row [a] of column [c]. *)
Definition cell (a c : R) (f : t) : option (option R) :=
  col <- get_column c f ;;
  lookup a col.

(** [frame.shape]: the numbers of rows and of columns. *)
Definition shape (f : t) : nat * nat :=
  (length (index f), length (columns f)).
End SweepFrame.

(** The consecutive integers [a, a+1, ..., a+n-1]. *)
Fixpoint zrange (a : Z) (n : nat) : list Z :=
  match n with
  | O => []
  | S n' => a :: zrange (a + 1) n'
  end.

(** Modelled from the spec: modsim's [linrange], which both notebooks
    import, is not among the sources.  The spec has the loop of
    [run_simulation] visit every integer [t] from [t0] to [t_end - 1], and
    none when [t_end <= t0]; chap12 asks for [linrange(t0, t_end - 1)], so the
    stop value is the last one produced, and the range is empty when the stop
    value lies before the start.  chap14 calls the same function, as
    [linrange(t0, t_end)]. *)
Definition linrange (start stop : Z) : list Z :=
  zrange start (Z.to_nat (stop - start + 1)).

(** ** chap12.ipynb *)

Module Chap12.

Definition make_system (beta gamma : R) : System.t :=
  let init := State.mk 89 1 0 in
  let init := State_div init (State_sum init) in
  let t0 := 0%Z in
  let t_end := (7 * 14)%Z in
  System.mk init t0 t_end beta gamma.

Definition update_func (state : State.t) (t : Z) (system : System.t)
  : State.t :=
  let '(State.mk s i r) := state in
  let infected := System.beta system * i * s in
  let recovered := System.gamma system * i in
  let s := s - infected in
  let i := i + (infected - recovered) in
  let r := r + recovered in
  State.mk s i r.

(** The loop of [run_simulation], over the time stamps still to visit.
    [calls] counts the invocations of [update_func] made so far. *)
Fixpoint run_loop (update_func : State.t -> Z -> System.t -> State.t)
    (system : System.t) (ts : list Z) (frame : TimeFrame.t) (calls : nat)
  : option (TimeFrame.t * nat) :=
  match ts with
  | [] => Some (frame, calls)
  | t :: ts' =>
      row <- TimeFrame.row_get t frame ;;
      run_loop update_func system ts'
        (TimeFrame.row_set (t + 1) (update_func row t system) frame)
        (S calls)
  end.

(** [run_simulation] with the number of [update_func] calls it made. *)
Definition run_simulation_counting (system : System.t)
    (update_func : State.t -> Z -> System.t -> State.t)
  : option (TimeFrame.t * nat) :=
  let frame := TimeFrame.empty in
  let frame := TimeFrame.row_set (System.t0 system) (System.init system) frame in
  run_loop update_func system
    (linrange (System.t0 system) (System.t_end system - 1)) frame O.

Definition run_simulation (system : System.t)
    (update_func : State.t -> Z -> System.t -> State.t)
  : option TimeFrame.t :=
  option_map fst (run_simulation_counting system update_func).

Definition calc_total_infected (results : TimeFrame.t) (system : System.t)
  : option R :=
  s0 <- TimeFrame.S_at (System.t0 system) results ;;
  s_end <- TimeFrame.S_at (System.t_end system) results ;;
  Some (s0 - s_end).

(** [system.init.S -= fraction; system.init.R += fraction]: the System is
    changed in place, here the changed System is returned. *)
Definition add_immunization (system : System.t) (fraction : R) : System.t :=
  let init := System.init system in
  let init := State.mk (State.S init - fraction) (State.I init) (State.R init) in
  let init := State.mk (State.S init) (State.I init) (State.R init + fraction) in
  System.mk init (System.t0 system) (System.t_end system)
    (System.beta system) (System.gamma system).

(** [denom ** (1/nu)] is read as the real power [Rpower]. *)
Definition logistic (x A B C M K Q nu : R) : R :=
  let exponent := - B * (x - M) in
  let denom := C + Q * exp exponent in
  A + (K - A) / Rpower denom (1 / nu).

(** The defaults of [logistic]'s keyword arguments. *)
Definition logistic_A : R := 0.
Definition logistic_B : R := 1.
Definition logistic_C : R := 1.
Definition logistic_M : R := 0.
Definition logistic_K : R := 1.
Definition logistic_Q : R := 1.
Definition logistic_nu : R := 1.

Definition compute_factor (spending : R) : R :=
  logistic spending logistic_A 0.01 logistic_C 500 0.2
    logistic_Q logistic_nu.

(** [system.beta *= (1 - factor)], the changed System returned. *)
Definition add_hand_washing (system : System.t) (spending : R) : System.t :=
  let factor := compute_factor spending in
  System.mk (System.init system) (System.t0 system) (System.t_end system)
    (System.beta system * (1 - factor)) (System.gamma system).

(** The notebook's globals. *)
Definition tc : R := 3.
Definition tr : R := 4.
Definition beta : R := 1 / tc.
Definition gamma : R := 1 / tr.

(** The loop of [sweep_hand_washing]. *)
Fixpoint sweep_hand_washing_loop (spending_array : list R)
    (sweep : SweepSeries.t) : option SweepSeries.t :=
  match spending_array with
  | [] => Some sweep
  | spending :: rest =>
      let system := make_system beta gamma in
      let system := add_hand_washing system spending in
      results <- run_simulation system update_func ;;
      total <- calc_total_infected results system ;;
      sweep_hand_washing_loop rest (SweepSeries.set spending total sweep)
  end.

Definition sweep_hand_washing (spending_array : list R)
  : option SweepSeries.t :=
  let sweep := SweepSeries.empty in
  sweep_hand_washing_loop spending_array sweep.

(** More of the notebook's globals (the cell before the dose sweep). *)
Definition num_students : R := 90.
Definition budget : R := 1200.
Definition price_per_dose : R := 100.

(** The loop of [sweep_doses]. *)
Fixpoint sweep_doses_loop (dose_array : list R) (sweep : SweepSeries.t)
  : option SweepSeries.t :=
  match dose_array with
  | [] => Some sweep
  | doses :: rest =>
      let fraction := doses / num_students in
      let spending := budget - doses * price_per_dose in
      let system := make_system beta gamma in
      let system := add_immunization system fraction in
      let system := add_hand_washing system spending in
      results <- run_simulation system update_func ;;
      total <- calc_total_infected results system ;;
      sweep_doses_loop rest (SweepSeries.set doses total sweep)
  end.

Definition sweep_doses (dose_array : list R) : option SweepSeries.t :=
  let sweep := SweepSeries.empty in
  sweep_doses_loop dose_array sweep.

(** The cell that prints one line per number of doses, before [sweep_doses]
    is defined.  Its statement [results, run_simulation(system, update_func)]
    builds a pair and drops it: nothing is assigned, so [results] is the
    global the notebook bound earlier, the same in every iteration.  [out]
    holds the lines printed so far; the flag tells whether the loop ran to
    its end ([false]: an exception stopped it). *)
Fixpoint print_doses (results : TimeFrame.t) (dose_array : list R)
    (out : list (R * R * R * R)) : list (R * R * R * R) * bool :=
  match dose_array with
  | [] => (out, true)
  | doses :: rest =>
      let fraction := doses / num_students in
      let spending := budget - doses * price_per_dose in
      let system := make_system beta gamma in
      let system := add_immunization system fraction in
      let system := add_hand_washing system spending in
      match run_simulation system update_func with
      | None => (out, false)
      | Some _ =>
          match calc_total_infected results system with
          | None => (out, false)
          | Some total =>
              print_doses results rest
                (out ++ [(doses, State.S (System.init system),
                          System.beta system, total)])
          end
      end
  end.

End Chap12.

(** ** chap14.ipynb *)

Module Chap14.

Definition make_system (beta gamma : R) : System.t :=
  let init := State.mk 89 1 0 in
  let init := State_div init (State_sum init) in
  let t0 := 0%Z in
  let t_end := (7 * 14)%Z in
  System.mk init t0 t_end beta gamma.

Definition update_func (state : State.t) (system : System.t) : State.t :=
  let '(State.mk s i r) := state in
  let infected := System.beta system * i * s in
  let recovered := System.gamma system * i in
  let s := s - infected in
  let i := i + (infected - recovered) in
  let r := r + recovered in
  State.mk s i r.

(** The loop of [run_simulation]; [calls] counts the invocations of
    [update_func] made so far. *)
Fixpoint run_loop (update_func : State.t -> System.t -> State.t)
    (system : System.t) (ts : list Z) (frame : TimeFrame.t) (calls : nat)
  : option (TimeFrame.t * nat) :=
  match ts with
  | [] => Some (frame, calls)
  | i :: ts' =>
      row <- TimeFrame.row_get i frame ;;
      run_loop update_func system ts'
        (TimeFrame.row_set (i + 1) (update_func row system) frame)
        (S calls)
  end.

(** [run_simulation] with the number of [update_func] calls it made;
    [unpack(system)] makes the fields of the System readable by name. *)
Definition run_simulation_counting (system : System.t)
    (update_func : State.t -> System.t -> State.t)
  : option (TimeFrame.t * nat) :=
  let init := System.init system in
  let t0 := System.t0 system in
  let t_end := System.t_end system in
  let frame := TimeFrame.empty in
  let frame := TimeFrame.row_set t0 init frame in
  run_loop update_func system (linrange t0 t_end) frame O.

Definition run_simulation (system : System.t)
    (update_func : State.t -> System.t -> State.t)
  : option TimeFrame.t :=
  option_map fst (run_simulation_counting system update_func).

Definition calc_total_infected (results : TimeFrame.t) (system : System.t)
  : option R :=
  s0 <- TimeFrame.S_at (System.t0 system) results ;;
  s_end <- TimeFrame.S_at (System.t_end system) results ;;
  Some (s0 - s_end).

(** The loop of [sweep_beta]. *)
Fixpoint sweep_beta_loop (beta_array : list R) (gamma : R)
    (sweep : SweepSeries.t) : option SweepSeries.t :=
  match beta_array with
  | [] => Some sweep
  | beta :: rest =>
      let system := make_system beta gamma in
      results <- run_simulation system update_func ;;
      total <- calc_total_infected results system ;;
      sweep_beta_loop rest gamma
        (SweepSeries.set (System.beta system) total sweep)
  end.

Definition sweep_beta (beta_array : list R) (gamma : R)
  : option SweepSeries.t :=
  let sweep := SweepSeries.empty in
  sweep_beta_loop beta_array gamma sweep.

(** The loop of [sweep_parameters]. *)
Fixpoint sweep_parameters_loop (beta_array gamma_array : list R)
    (frame : SweepFrame.t) : option SweepFrame.t :=
  match gamma_array with
  | [] => Some frame
  | gamma :: rest =>
      column <- sweep_beta beta_array gamma ;;
      sweep_parameters_loop beta_array rest
        (SweepFrame.set_column gamma column frame)
  end.

Definition sweep_parameters (beta_array gamma_array : list R)
  : option SweepFrame.t :=
  let frame := SweepFrame.create gamma_array in
  sweep_parameters_loop beta_array gamma_array frame.

(** The cells of the analysis section, as functions of the global
    [s_inf_array] they are computed from; numpy works element by element, and
    [Series(frac_infected, index=c_array)] pairs the two arrays position by
    position. *)
Definition c_array (s_inf_array : list R) : list R :=
  map (fun s_inf => ln s_inf / (s_inf - 1)) s_inf_array.

Definition frac_infected (s_inf_array : list R) : list R :=
  map (fun s_inf => 1 - s_inf) s_inf_array.

Definition frac_infected_series (s_inf_array : list R) : list (R * R) :=
  combine (c_array s_inf_array) (frac_infected s_inf_array).

End Chap14.

(** * Vocabulary of the statements *)

(** The frame [frame] and the number [calls] of update calls are those of a
    run of [sys] under the update rule [u]: the row at [t0] is the initial
    State, each later row is the update of the row before it, the rows are
    the days [t0 .. t0 + calls] in this order and nothing else. *)
Definition steps_through (u : State.t -> Z -> System.t -> State.t)
    (sys : System.t) (frame : TimeFrame.t) (calls : nat) : Prop :=
  TimeFrame.row_get (System.t0 sys) frame = Some (System.init sys) /\
  (forall t, (System.t0 sys <= t < System.t0 sys + Z.of_nat calls)%Z ->
     exists st, TimeFrame.row_get t frame = Some st /\
                TimeFrame.row_get (t + 1) frame = Some (u st t sys)) /\
  TimeFrame.index frame = zrange (System.t0 sys) (S calls).

(** The generalized logistic function as the spec writes it. *)
Definition generalized_logistic (x A B C M K Q nu : R) : R :=
  A + (K - A) / Rpower (C + Q * exp (- B * (x - M))) (1 / nu).

(** The values of a sequence in the order of their first occurrence;
    [seen] holds the values met so far. *)
Fixpoint first_occurrences_from (seen l : list R) : list R :=
  match l with
  | [] => []
  | x :: l' =>
      if in_dec Req_dec_T x seen
      then first_occurrences_from seen l'
      else x :: first_occurrences_from (seen ++ [x]) l'
  end.

Definition first_occurrences (l : list R) : list R :=
  first_occurrences_from [] l.

(** The summary of the simulation that chap12's sweep builds for one level
    of spending, on its own: S at [t0] minus S at [t_end]. *)
Definition hand_washing_total (spending : R) : option R :=
  let system := Chap12.make_system Chap12.beta Chap12.gamma in
  let system := Chap12.add_hand_washing system spending in
  results <- Chap12.run_simulation system Chap12.update_func ;;
  Chap12.calc_total_infected results system.

(** The summary of the simulation that chap14's sweeps build for one pair
    of rates, on its own. *)
Definition total_infected (beta gamma : R) : option R :=
  let system := Chap14.make_system beta gamma in
  results <- Chap14.run_simulation system Chap14.update_func ;;
  Chap14.calc_total_infected results system.

(** The loop shared by the one-parameter sweeps: for each value in turn,
    compute its summary with [f] and record it under the value. *)
Fixpoint record_all (f : R -> option R) (l : list R) (sweep : SweepSeries.t)
  : option SweepSeries.t :=
  match l with
  | [] => Some sweep
  | x :: l' =>
      total <- f x ;;
      record_all f l' (SweepSeries.set x total sweep)
  end.

(** The state of the table after the columns [done] were assigned: the
    column labels are still [labels], the rows are the distinct values of
    [beta_array] once a column was assigned, and an assigned column holds
    the sweep over [beta_array] for its label. *)
Definition assigned (beta_array labels done : list R) (f : SweepFrame.t)
  : Prop :=
  map fst (SweepFrame.columns f) = labels /\
  (SweepFrame.index f = [] \/
   SweepFrame.index f = first_occurrences beta_array) /\
  (done <> [] -> SweepFrame.index f = first_occurrences beta_array) /\
  (forall l cells series,
     In (l, cells) (SweepFrame.columns f) -> In l done ->
     Chap14.sweep_beta beta_array l = Some series ->
     cells = SweepFrame.reindex (first_occurrences beta_array) series).

(** A State of fractions of a closed population: no component is negative
    and the three sum to 1. *)
Definition valid_state (st : State.t) : Prop :=
  0 <= State.S st /\ 0 <= State.I st /\ 0 <= State.R st /\ State_sum st = 1.

(** The rows [(a, st), (a + 1, u st a sys), ...] that [n] updates from the
    State [st] on day [a] produce. *)
Fixpoint orbit (u : State.t -> Z -> System.t -> State.t) (sys : System.t)
    (a : Z) (st : State.t) (n : nat) : TimeFrame.t :=
  (a, st) ::
  match n with
  | O => []
  | S n' => orbit u sys (a + 1) (u st a sys) n'
  end.

(** The summary of the simulation that [sweep_doses] builds for one number
    of doses, on its own. *)
Definition doses_total (doses : R) : option R :=
  let fraction := doses / Chap12.num_students in
  let spending := Chap12.budget - doses * Chap12.price_per_dose in
  let system := Chap12.make_system Chap12.beta Chap12.gamma in
  let system := Chap12.add_immunization system fraction in
  let system := Chap12.add_hand_washing system spending in
  results <- Chap12.run_simulation system Chap12.update_func ;;
  Chap12.calc_total_infected results system.

(** The System [sys] with its last day moved one day on. *)
Definition one_more_day (sys : System.t) : System.t :=
  System.mk (System.init sys) (System.t0 sys) (System.t_end sys + 1)
    (System.beta sys) (System.gamma sys).

(** * Properties *)

(** Closes [NoDup l] for a list [l] of distinct real constants. *)
Ltac distinct_reals :=
  repeat constructor; simpl;
  let H := fresh in
  intros H; repeat (destruct H as [H|H]; [lra|]); exact H.

(** ** The time frame as a keyed sequence *)

Lemma row_get_set_same (k : Z) (st : State.t) (f : TimeFrame.t) :
  TimeFrame.row_get k (TimeFrame.row_set k st f) = Some st.
Proof.
  induction f as [|[k' st'] f IH]; simpl.
  - now rewrite Z.eqb_refl.
  - destruct (Z.eqb k' k) eqn:E; simpl; rewrite E; auto.
Qed.

Lemma row_get_set_other (k k' : Z) (st : State.t) (f : TimeFrame.t) :
  k <> k' ->
  TimeFrame.row_get k' (TimeFrame.row_set k st f) = TimeFrame.row_get k' f.
Proof.
  intros Hk. induction f as [|[k1 st1] f IH]; simpl.
  - destruct (Z.eqb_spec k k'); congruence.
  - destruct (Z.eqb_spec k1 k) as [->|Hk1]; simpl.
    + destruct (Z.eqb_spec k k'); congruence.
    + now rewrite IH.
Qed.

Lemma index_row_set_new (k : Z) (st : State.t) (f : TimeFrame.t) :
  TimeFrame.row_get k f = None ->
  TimeFrame.index (TimeFrame.row_set k st f) = TimeFrame.index f ++ [k].
Proof.
  unfold TimeFrame.index.
  induction f as [|[k1 st1] f IH]; simpl; intros H; auto.
  destruct (Z.eqb k1 k); [discriminate|]. simpl. now rewrite IH.
Qed.

Lemma row_get_In (k : Z) (st : State.t) (f : TimeFrame.t) :
  TimeFrame.row_get k f = Some st -> In (k, st) f.
Proof.
  induction f as [|[k1 st1] f IH]; simpl; [discriminate|].
  destruct (Z.eqb_spec k1 k) as [->|_]; intros H.
  - left. congruence.
  - right. auto.
Qed.

Lemma row_set_Forall (P : Z * State.t -> Prop) (k : Z) (st : State.t)
    (f : TimeFrame.t) :
  Forall P f -> (forall k', P (k', st)) -> Forall P (TimeFrame.row_set k st f).
Proof.
  intros Hf Hst. induction Hf as [|[k1 st1] f H1 Hf IH]; simpl.
  - constructor; auto.
  - destruct (Z.eqb k1 k); constructor; auto.
Qed.

Lemma length_zrange (a : Z) (n : nat) : length (zrange a n) = n.
Proof. revert a. induction n; simpl; intros; auto. Qed.

Lemma index_length (f : TimeFrame.t) : length (TimeFrame.index f) = length f.
Proof. apply length_map. Qed.

Lemma row_get_None_iff (k : Z) (f : TimeFrame.t) :
  TimeFrame.row_get k f = None <-> ~ In k (TimeFrame.index f).
Proof.
  unfold TimeFrame.index.
  induction f as [|[k1 st1] f IH]; simpl; [tauto|].
  destruct (Z.eqb_spec k1 k) as [->|Hne].
  - split; [discriminate|tauto].
  - rewrite IH. tauto.
Qed.

Lemma In_zrange (k a : Z) (n : nat) :
  In k (zrange a n) <-> (a <= k < a + Z.of_nat n)%Z.
Proof.
  revert a. induction n as [|n IH]; intros a.
  - simpl. lia.
  - cbn [zrange In]. rewrite IH. lia.
Qed.

(** ** chap14's loop in terms of chap12's *)

Lemma update_func_14_12 (st : State.t) (t : Z) (sys : System.t) :
  Chap14.update_func st sys = Chap12.update_func st t sys.
Proof. reflexivity. Qed.

Lemma run_loop_14_12 (u : State.t -> System.t -> State.t) (sys : System.t)
    (ts : list Z) (fr : TimeFrame.t) (c : nat) :
  Chap14.run_loop u sys ts fr c =
  Chap12.run_loop (fun st _ s => u st s) sys ts fr c.
Proof.
  revert fr c. induction ts as [|t ts IH]; simpl; intros; auto.
  destruct (TimeFrame.row_get t fr); simpl; auto.
Qed.

Lemma run_loop_rates (u u' : State.t -> Z -> System.t -> State.t)
    (sys sys' : System.t) :
  (forall st t, u st t sys = u' st t sys') ->
  forall ts fr c,
    Chap12.run_loop u sys ts fr c = Chap12.run_loop u' sys' ts fr c.
Proof.
  intros Hu. induction ts as [|t ts IH]; intros fr c; [reflexivity|].
  cbn [Chap12.run_loop].
  destruct (TimeFrame.row_get t fr); cbn [bind]; [|reflexivity].
  rewrite Hu. apply IH.
Qed.

(** Both loops call the update rule once for each time stamp they are
    given, whatever the list of time stamps is. *)
Lemma run_loop_calls (u : State.t -> Z -> System.t -> State.t)
    (sys : System.t) (ts : list Z) :
  forall fr c fr' c',
    Chap12.run_loop u sys ts fr c = Some (fr', c') ->
    c' = (c + length ts)%nat.
Proof.
  induction ts as [|t ts IH]; intros fr c fr' c'; cbn [Chap12.run_loop].
  - intros H. injection H as _ <-. simpl. lia.
  - destruct (TimeFrame.row_get t fr); cbn [bind]; [|discriminate].
    intros H. apply IH in H. simpl. lia.
Qed.

(** chap14's [run_simulation] asks for [linrange(t0, t_end)] where chap12's
    asks for [linrange(t0, t_end - 1)]: on a System it does what chap12's
    does on the System that ends one day later. *)
Lemma run_simulation_counting_14_12 (sys : System.t) :
  Chap14.run_simulation_counting sys Chap14.update_func =
  Chap12.run_simulation_counting (one_more_day sys) Chap12.update_func.
Proof.
  unfold Chap14.run_simulation_counting, Chap12.run_simulation_counting.
  cbv zeta. rewrite run_loop_14_12.
  unfold one_more_day. cbn [System.t0 System.t_end System.init].
  replace (System.t_end sys + 1 - 1)%Z with (System.t_end sys) by lia.
  apply run_loop_rates. reflexivity.
Qed.

Lemma run_simulation_14_12 (sys : System.t) :
  Chap14.run_simulation sys Chap14.update_func =
  Chap12.run_simulation (one_more_day sys) Chap12.update_func.
Proof.
  unfold Chap14.run_simulation, Chap12.run_simulation.
  now rewrite run_simulation_counting_14_12.
Qed.

(** ** The simulation loop *)

Section SimulationLoop.

Variable u : State.t -> Z -> System.t -> State.t.
Variable sys : System.t.

(** What the loop does on [n] consecutive time stamps from [a], started on a
    frame whose last row is the one labelled [a]. *)
Lemma run_loop_zrange (n : nat) :
  forall (a : Z) (fr : TimeFrame.t) (c : nat) (st : State.t),
    TimeFrame.row_get a fr = Some st ->
    (forall k, (a < k)%Z -> TimeFrame.row_get k fr = None) ->
    exists fr',
      Chap12.run_loop u sys (zrange a n) fr c = Some (fr', (c + n)%nat) /\
      TimeFrame.index fr' = TimeFrame.index fr ++ zrange (a + 1) n /\
      (forall k, (k <= a)%Z ->
         TimeFrame.row_get k fr' = TimeFrame.row_get k fr) /\
      (forall k, (a <= k < a + Z.of_nat n)%Z ->
         exists s, TimeFrame.row_get k fr' = Some s /\
                   TimeFrame.row_get (k + 1) fr' = Some (u s k sys)) /\
      (forall k, (a + Z.of_nat n < k)%Z -> TimeFrame.row_get k fr' = None).
Proof.
  induction n as [|n IH]; intros a fr c st Ha Hlast.
  - exists fr. simpl. rewrite Nat.add_0_r, app_nil_r.
    repeat split; auto.
    + intros k Hk. lia.
    + intros k Hk. apply Hlast. lia.
  - simpl zrange. simpl Chap12.run_loop. rewrite Ha. simpl bind.
    set (st1 := u st a sys). set (fr1 := TimeFrame.row_set (a + 1) st1 fr).
    assert (H1 : TimeFrame.row_get (a + 1) fr1 = Some st1)
      by apply row_get_set_same.
    assert (Hother : forall k, k <> (a + 1)%Z ->
              TimeFrame.row_get k fr1 = TimeFrame.row_get k fr).
    { intros k Hk. apply row_get_set_other. congruence. }
    destruct (IH (a + 1)%Z fr1 (S c) st1 H1) as (fr' & Hrun & Hidx & Hlow & Hmid & Hhigh).
    { intros k Hk. rewrite Hother by lia. apply Hlast. lia. }
    exists fr'. rewrite Hrun. repeat split.
    + do 2 f_equal. lia.
    + rewrite Hidx. unfold fr1. rewrite index_row_set_new by (apply Hlast; lia).
      now rewrite <- app_assoc.
    + intros k Hk. rewrite Hlow by lia. apply Hother. lia.
    + intros k Hk. destruct (Z.eq_dec k a) as [->|Hne].
      * exists st. split.
        -- rewrite Hlow by lia. rewrite Hother by lia. exact Ha.
        -- rewrite Hlow by lia. exact H1.
      * apply Hmid. lia.
    + intros k Hk. apply Hhigh. lia.
Qed.

Lemma run_simulation_counting_12 :
  exists frame,
    Chap12.run_simulation_counting sys u =
      Some (frame, Z.to_nat (System.t_end sys - System.t0 sys)) /\
    steps_through u sys frame (Z.to_nat (System.t_end sys - System.t0 sys)).
Proof.
  unfold Chap12.run_simulation_counting, linrange. cbv zeta.
  replace (System.t_end sys - 1 - System.t0 sys + 1)%Z
    with (System.t_end sys - System.t0 sys)%Z by lia.
  set (n := Z.to_nat (System.t_end sys - System.t0 sys)).
  destruct (run_loop_zrange n (System.t0 sys)
              (TimeFrame.row_set (System.t0 sys) (System.init sys) TimeFrame.empty)
              O (System.init sys))
    as (fr' & Hrun & Hidx & Hlow & Hmid & Hhigh).
  - apply row_get_set_same.
  - intros k Hk. simpl. destruct (Z.eqb_spec (System.t0 sys) k); [lia|auto].
  - exists fr'. split; [exact Hrun|]. repeat split.
    + rewrite Hlow by lia. apply row_get_set_same.
    + exact Hmid.
    + rewrite Hidx. reflexivity.
Qed.

Lemma steps_through_length (frame : TimeFrame.t) (calls : nat) :
  steps_through u sys frame calls -> length frame = S calls.
Proof.
  intros (_ & _ & Hidx). rewrite <- index_length, Hidx. apply length_zrange.
Qed.

(** A property of States that the initial State has and the update rule
    keeps holds of every row of the frame the loop builds. *)
Lemma run_loop_Forall (P : State.t -> Prop) :
  (forall st t, P st -> P (u st t sys)) ->
  forall ts fr c fr' c',
    Forall (fun row => P (snd row)) fr ->
    Chap12.run_loop u sys ts fr c = Some (fr', c') ->
    Forall (fun row => P (snd row)) fr'.
Proof.
  intros Hu. induction ts as [|t ts IH]; simpl; intros fr c fr' c' Hfr Hrun.
  - congruence.
  - destruct (TimeFrame.row_get t fr) as [st|] eqn:Hget; simpl in Hrun;
      [|discriminate].
    eapply IH; [|exact Hrun].
    apply row_set_Forall; auto. intros k'. simpl. apply Hu.
    apply row_get_In in Hget.
    rewrite Forall_forall in Hfr. exact (Hfr _ Hget).
Qed.

Lemma run_simulation_Forall (P : State.t -> Prop) :
  (forall st t, P st -> P (u st t sys)) ->
  P (System.init sys) ->
  exists frame,
    Chap12.run_simulation sys u = Some frame /\
    forall t st, TimeFrame.row_get t frame = Some st -> P st.
Proof.
  intros Hu Hinit.
  destruct run_simulation_counting_12 as (frame & Hrun & _).
  exists frame. split.
  - unfold Chap12.run_simulation. now rewrite Hrun.
  - intros t st Hget. apply row_get_In in Hget.
    unfold Chap12.run_simulation_counting in Hrun. cbv zeta in Hrun.
    eapply run_loop_Forall in Hrun; [|exact Hu|].
    + rewrite Forall_forall in Hrun. exact (Hrun _ Hget).
    + simpl. constructor; auto.
Qed.

Lemma calc_total_infected_some :
  (System.t0 sys < System.t_end sys)%Z ->
  exists results total,
    Chap12.run_simulation sys u = Some results /\
    Chap12.calc_total_infected results sys = Some total.
Proof.
  intros Hlt.
  destruct run_simulation_counting_12 as (frame & Hrun & H0 & Hchain & _).
  destruct (Hchain (System.t_end sys - 1)%Z) as (st & _ & Hend); [lia|].
  replace (System.t_end sys - 1 + 1)%Z with (System.t_end sys) in Hend by lia.
  exists frame. eexists. split.
  - unfold Chap12.run_simulation. now rewrite Hrun.
  - unfold Chap12.calc_total_infected, TimeFrame.S_at.
    rewrite H0, Hend. reflexivity.
Qed.

End SimulationLoop.

(** chap14's run, read off chap12's on the System that ends a day later. *)
Lemma run_simulation_counting_14 (sys : System.t) :
  exists frame,
    Chap14.run_simulation_counting sys Chap14.update_func =
      Some (frame, Z.to_nat (System.t_end sys - System.t0 sys + 1)) /\
    TimeFrame.row_get (System.t0 sys) frame = Some (System.init sys) /\
    (forall t,
       (System.t0 sys <= t <
        System.t0 sys +
        Z.of_nat (Z.to_nat (System.t_end sys - System.t0 sys + 1)))%Z ->
       exists st,
         TimeFrame.row_get t frame = Some st /\
         TimeFrame.row_get (t + 1) frame =
           Some (Chap14.update_func st sys)) /\
    TimeFrame.index frame =
      zrange (System.t0 sys)
        (S (Z.to_nat (System.t_end sys - System.t0 sys + 1))).
Proof.
  rewrite run_simulation_counting_14_12.
  destruct (run_simulation_counting_12 Chap12.update_func (one_more_day sys))
    as (frame & Hrun & H0 & Hchain & Hidx).
  unfold one_more_day in Hrun, H0, Hchain, Hidx.
  cbn [System.t0 System.t_end System.init] in Hrun, H0, Hchain, Hidx.
  replace (System.t_end sys + 1 - System.t0 sys)%Z
    with (System.t_end sys - System.t0 sys + 1)%Z in * by lia.
  exists frame. split; [exact Hrun|]. split; [exact H0|].
  split; [exact Hchain|exact Hidx].
Qed.

(** C1, as the code has it: for a System with [t0 < t_end], chap12's
    [run_simulation] returns a frame whose row at [t0] is [system.init] and
    whose row at [t + 1], for every [t] from [t0] to [t_end - 1], is the
    update rule applied to the row at [t]; it calls the update rule
    [t_end - t0] times and the frame has [t_end - t0 + 1] rows.  chap14's
    [run_simulation] passes [t_end] itself to [linrange] and so visits the
    day [t_end] too: it calls the update rule [t_end - t0 + 1] times and
    its frame has [t_end - t0 + 2] rows, the last one for [t_end + 1]. *)
Theorem run_simulation_steps (system : System.t) :
  (System.t0 system < System.t_end system)%Z ->
  (exists frame,
     Chap12.run_simulation system Chap12.update_func = Some frame /\
     Chap12.run_simulation_counting system Chap12.update_func =
       Some (frame, Z.to_nat (System.t_end system - System.t0 system)) /\
     TimeFrame.row_get (System.t0 system) frame = Some (System.init system) /\
     (forall t, (System.t0 system <= t <= System.t_end system - 1)%Z ->
        exists st,
          TimeFrame.row_get t frame = Some st /\
          TimeFrame.row_get (t + 1) frame =
            Some (Chap12.update_func st t system)) /\
     length frame =
       Z.to_nat (System.t_end system - System.t0 system + 1)) /\
  (exists frame,
     Chap14.run_simulation system Chap14.update_func = Some frame /\
     Chap14.run_simulation_counting system Chap14.update_func =
       Some (frame, Z.to_nat (System.t_end system - System.t0 system + 1)) /\
     TimeFrame.row_get (System.t0 system) frame = Some (System.init system) /\
     (forall t, (System.t0 system <= t <= System.t_end system)%Z ->
        exists st,
          TimeFrame.row_get t frame = Some st /\
          TimeFrame.row_get (t + 1) frame =
            Some (Chap14.update_func st system)) /\
     length frame =
       Z.to_nat (System.t_end system - System.t0 system + 2)).
Proof.
  intros Hlt. split.
  - destruct (run_simulation_counting_12 Chap12.update_func system)
      as (frame & Hrun & Hsteps).
    assert (Hlen := steps_through_length _ _ _ _ Hsteps).
    destruct Hsteps as (H0 & Hchain & _).
    exists frame. split; [|split; [exact Hrun|split; [exact H0|split]]].
    + unfold Chap12.run_simulation. now rewrite Hrun.
    + intros t Ht. apply Hchain. lia.
    + rewrite Hlen. lia.
  - destruct (run_simulation_counting_14 system)
      as (frame & Hrun & H0 & Hchain & Hidx).
    exists frame. split; [|split; [exact Hrun|split; [exact H0|split]]].
    + unfold Chap14.run_simulation. now rewrite Hrun.
    + intros t Ht. apply Hchain. lia.
    + rewrite <- index_length, Hidx, length_zrange. lia.
Qed.

Lemma run_simulation_steps_witness :
  (exists frame,
     Chap12.run_simulation_counting (Chap12.make_system (1 / 3) (1 / 4))
       Chap12.update_func = Some (frame, 98%nat) /\
     length frame = 99%nat) /\
  (exists frame,
     Chap14.run_simulation_counting (Chap14.make_system (1 / 3) (1 / 4))
       Chap14.update_func = Some (frame, 99%nat) /\
     length frame = 100%nat).
Proof.
  destruct (run_simulation_steps (Chap12.make_system (1 / 3) (1 / 4)))
    as [(frame & _ & Hrun & _ & _ & Hlen)
        (frame' & _ & Hrun' & _ & _ & Hlen')].
  - simpl. lia.
  - split; [exists frame|exists frame']; split; assumption.
Defined.




(** ** The update rule *)

Lemma State_eq (s i r s' i' r' : R) :
  s = s' -> i = i' -> r = r' -> State.mk s i r = State.mk s' i' r'.
Proof. intros; subst; reflexivity. Qed.

Lemma update_func_sum (state : State.t) (t : Z) (system : System.t) :
  State_sum (Chap12.update_func state t system) = State_sum state.
Proof. destruct state as [s i r]. unfold State_sum. simpl. ring. Qed.

Lemma make_system_12 (beta gamma : R) :
  Chap12.make_system beta gamma =
    System.mk (State.mk (89 / 90) (1 / 90) 0) 0 98 beta gamma.
Proof.
  unfold Chap12.make_system, State_div. cbv zeta.
  f_equal. unfold State_sum. simpl. apply State_eq; lra.
Qed.

Lemma make_system_14 (beta gamma : R) :
  Chap14.make_system beta gamma =
    System.mk (State.mk (89 / 90) (1 / 90) 0) 0 98 beta gamma.
Proof. exact (make_system_12 beta gamma). Qed.

Lemma initial_state_sum : State_sum (State.mk (89 / 90) (1 / 90) 0) = 1.
Proof. unfold State_sum. simpl. lra. Qed.

(** C2: one application of the update rule keeps [S + I + R], in both
    notebooks; so when the initial State sums to 1, [run_simulation] returns
    a frame every row of which sums to 1. *)
Theorem population_conserved :
  (forall state t system,
     State_sum (Chap12.update_func state t system) = State_sum state) /\
  (forall state system,
     State_sum (Chap14.update_func state system) = State_sum state) /\
  (forall system,
     State_sum (System.init system) = 1 ->
     (exists frame,
        Chap12.run_simulation system Chap12.update_func = Some frame /\
        forall t st, TimeFrame.row_get t frame = Some st -> State_sum st = 1) /\
     (exists frame,
        Chap14.run_simulation system Chap14.update_func = Some frame /\
        forall t st, TimeFrame.row_get t frame = Some st -> State_sum st = 1)).
Proof.
  split; [exact update_func_sum|].
  split; [intros st sys; exact (update_func_sum st 0%Z sys)|].
  intros system Hinit. rewrite run_simulation_14_12. split.
  - apply (run_simulation_Forall Chap12.update_func system
             (fun st => State_sum st = 1)); auto.
    intros st t Hst. now rewrite update_func_sum.
  - apply (run_simulation_Forall Chap12.update_func (one_more_day system)
             (fun st => State_sum st = 1)); auto.
    intros st t Hst. now rewrite update_func_sum.
Qed.

Lemma population_conserved_witness :
  exists frame,
    Chap12.run_simulation (Chap12.make_system (1 / 3) (1 / 4))
      Chap12.update_func = Some frame /\
    forall t st, TimeFrame.row_get t frame = Some st -> State_sum st = 1.
Proof.
  destruct population_conserved as (_ & _ & Hrun).
  destruct (Hrun (Chap12.make_system (1 / 3) (1 / 4))) as [H12 _].
  - rewrite make_system_12. unfold State_sum. simpl. lra.
  - exact H12.
Defined.

(** C10: a State without infected is a fixed point of the update rule,
    whatever the rates, in both notebooks. *)
Theorem disease_free_fixed_point (state : State.t) (t : Z) (system : System.t) :
  State.I state = 0 ->
  Chap12.update_func state t system = state /\
  Chap14.update_func state system = state.
Proof.
  destruct state as [s i r]. simpl. intros Hi. rewrite Hi.
  split; apply State_eq; ring.
Qed.

Lemma disease_free_fixed_point_witness :
  Chap12.update_func (State.mk (1 / 2) 0 (1 / 2)) 0
    (Chap12.make_system (1 / 3) (1 / 4)) = State.mk (1 / 2) 0 (1 / 2) /\
  Chap14.update_func (State.mk (1 / 2) 0 (1 / 2))
    (Chap14.make_system (1 / 3) (1 / 4)) = State.mk (1 / 2) 0 (1 / 2).
Proof.
  apply (disease_free_fixed_point (State.mk (1 / 2) 0 (1 / 2)) 0
           (Chap12.make_system (1 / 3) (1 / 4))).
  reflexivity.
Defined.

(** ** Construction and transforms of a System *)

(** C9: whatever the two rates, [make_system] returns the System with the
    initial State (89/90, 1/90, 0), which sums to 1, with [t0 = 0] and
    [t_end = 98], and with the rates as given; in both notebooks. *)
Theorem make_system_fixed (beta gamma : R) :
  Chap12.make_system beta gamma =
    System.mk (State.mk (89 / 90) (1 / 90) 0) 0 98 beta gamma /\
  Chap14.make_system beta gamma =
    System.mk (State.mk (89 / 90) (1 / 90) 0) 0 98 beta gamma /\
  State_sum (State.mk (89 / 90) (1 / 90) 0) = 1.
Proof.
  split; [apply make_system_12|].
  split; [apply make_system_14|apply initial_state_sum].
Qed.

(** C7: [add_immunization] takes the fraction off the S component of the
    initial State and adds it to the R component; the I component, the rates
    and the time stamps stay, and so does the sum of the initial State. *)
Theorem add_immunization_moves (system : System.t) (fraction : R) :
  let system' := Chap12.add_immunization system fraction in
  State.S (System.init system') = State.S (System.init system) - fraction /\
  State.R (System.init system') = State.R (System.init system) + fraction /\
  State.I (System.init system') = State.I (System.init system) /\
  System.beta system' = System.beta system /\
  System.gamma system' = System.gamma system /\
  System.t0 system' = System.t0 system /\
  System.t_end system' = System.t_end system /\
  State_sum (System.init system') = State_sum (System.init system).
Proof.
  simpl. repeat split. unfold State_sum. simpl. ring.
Qed.

(** The denominator of the hand-washing factor is positive, so the power
    [denom ** (1/nu)] with [nu = 1] is the denominator itself. *)
Lemma compute_factor_closed (spending : R) :
  Chap12.compute_factor spending =
    0.2 / (1 + exp (- (0.01 * (spending - 500)))).
Proof.
  unfold Chap12.compute_factor, Chap12.logistic, Chap12.logistic_A,
    Chap12.logistic_C, Chap12.logistic_Q, Chap12.logistic_nu.
  cbv zeta.
  replace (- (0.01) * (spending - 500)) with (- (0.01 * (spending - 500)))
    by ring.
  assert (Hpos := exp_pos (- (0.01 * (spending - 500)))).
  replace (1 / 1) with 1 by lra.
  rewrite Rpower_1 by lra.
  field. lra.
Qed.

Lemma compute_factor_bounds (spending : R) :
  0 < Chap12.compute_factor spending < 0.2.
Proof.
  rewrite compute_factor_closed.
  assert (Hpos := exp_pos (- (0.01 * (spending - 500)))).
  split.
  - apply Rdiv_lt_0_compat; lra.
  - apply Rmult_lt_reg_r with (1 + exp (- (0.01 * (spending - 500)))); [lra|].
    unfold Rdiv. rewrite Rmult_assoc, Rinv_l by lra. lra.
Qed.

(** C6: [add_hand_washing] replaces beta by [beta * (1 - factor)], where
    [factor] is the generalized logistic function of the spec at the
    spending, with A = 0, C = 1, Q = 1, nu = 1 (the defaults) and M = 500,
    K = 0.2, B = 0.01; the other fields of the System stay.  The factor is
    0.2 / (1 + exp (-0.01 (spending - 500))), strictly between 0 and 0.2. *)
Theorem add_hand_washing_scales_beta (system : System.t) (spending : R) :
  let factor := generalized_logistic spending 0 (0.01) 1 500 (0.2) 1 1 in
  Chap12.compute_factor spending = factor /\
  Chap12.add_hand_washing system spending =
    System.mk (System.init system) (System.t0 system) (System.t_end system)
      (System.beta system * (1 - factor)) (System.gamma system) /\
  factor = 0.2 / (1 + exp (- (0.01 * (spending - 500)))) /\
  0 < factor < 0.2.
Proof.
  cbv zeta.
  assert (H : Chap12.compute_factor spending =
              generalized_logistic spending 0 (0.01) 1 500 (0.2) 1 1)
    by reflexivity.
  rewrite <- H. repeat split.
  - apply compute_factor_closed.
  - apply compute_factor_bounds.
  - apply compute_factor_bounds.
Qed.

(** ** Recovery-only dynamics *)

Lemma update_func_recovery_only (st : State.t) (t : Z) (sys : System.t) :
  System.beta sys = 0 ->
  State.I (Chap12.update_func st t sys) =
    State.I st - System.gamma sys * State.I st.
Proof.
  destruct st as [s i r]. simpl. intros Hb. rewrite Hb. ring.
Qed.

Section Traces.

Variable sys : System.t.
Variable P : State.t -> Prop.
Hypothesis P_step : forall st t, P st -> P (Chap12.update_func st t sys).
Hypothesis P_init : P (System.init sys).

(** A run of chap12 whose rows all satisfy [P]: its first row, the link
    from each row to the next, and its row for [t_end]. *)
Lemma run_simulation_trace :
  exists frame,
    Chap12.run_simulation sys Chap12.update_func = Some frame /\
    (forall t st, TimeFrame.row_get t frame = Some st -> P st) /\
    TimeFrame.row_get (System.t0 sys) frame = Some (System.init sys) /\
    (forall t, (System.t0 sys <= t <= System.t_end sys - 1)%Z ->
       exists st,
         TimeFrame.row_get t frame = Some st /\
         TimeFrame.row_get (t + 1) frame =
           Some (Chap12.update_func st t sys)) /\
    (forall t st st',
       TimeFrame.row_get t frame = Some st ->
       TimeFrame.row_get (t + 1) frame = Some st' ->
       st' = Chap12.update_func st t sys) /\
    ((System.t0 sys <= System.t_end sys)%Z ->
     exists st, TimeFrame.row_get (System.t_end sys) frame = Some st).
Proof.
  destruct (run_simulation_Forall Chap12.update_func sys P P_step P_init)
    as (frame & Hrun & HP).
  destruct (run_simulation_counting_12 Chap12.update_func sys)
    as (frame' & Hrun' & H0 & Hchain & Hidx).
  unfold Chap12.run_simulation in Hrun. rewrite Hrun' in Hrun.
  simpl in Hrun. injection Hrun as ->.
  exists frame.
  split; [unfold Chap12.run_simulation; now rewrite Hrun'|].
  split; [exact HP|]. split; [exact H0|]. split; [|split].
  - intros t Ht. apply Hchain. lia.
  - intros t st st' Hst Hst'.
    assert (Hin : In t (TimeFrame.index frame)).
    { destruct (in_dec Z.eq_dec t (TimeFrame.index frame)) as [H|H]; auto.
      apply row_get_None_iff in H. congruence. }
    assert (Hin' : In (t + 1)%Z (TimeFrame.index frame)).
    { destruct (in_dec Z.eq_dec (t + 1)%Z (TimeFrame.index frame)) as [H|H];
        auto.
      apply row_get_None_iff in H. congruence. }
    rewrite Hidx in Hin, Hin'. apply In_zrange in Hin, Hin'.
    destruct (Hchain t) as (s & Hs & Hs'); [lia|]. congruence.
  - intros Hle.
    destruct (Z.eq_dec (System.t0 sys) (System.t_end sys)) as [<-|Hne].
    + eauto.
    + destruct (Hchain (System.t_end sys - 1)%Z) as (st & _ & Hend); [lia|].
      replace (System.t_end sys - 1 + 1)%Z with (System.t_end sys)
        in Hend by lia.
      eauto.
Qed.

End Traces.

(** The same for a run of chap14, whose loop also visits [t_end]. *)
Lemma run_simulation_trace_14 (sys : System.t) (P : State.t -> Prop) :
  (forall st t, P st -> P (Chap12.update_func st t sys)) ->
  P (System.init sys) ->
  exists frame,
    Chap14.run_simulation sys Chap14.update_func = Some frame /\
    (forall t st, TimeFrame.row_get t frame = Some st -> P st) /\
    TimeFrame.row_get (System.t0 sys) frame = Some (System.init sys) /\
    (forall t, (System.t0 sys <= t <= System.t_end sys)%Z ->
       exists st,
         TimeFrame.row_get t frame = Some st /\
         TimeFrame.row_get (t + 1) frame =
           Some (Chap14.update_func st sys)) /\
    (forall t st st',
       TimeFrame.row_get t frame = Some st ->
       TimeFrame.row_get (t + 1) frame = Some st' ->
       st' = Chap14.update_func st sys) /\
    ((System.t0 sys <= System.t_end sys)%Z ->
     exists st, TimeFrame.row_get (System.t_end sys) frame = Some st).
Proof.
  intros P_step P_init.
  destruct (run_simulation_trace (one_more_day sys) P P_step P_init)
    as (frame & Hrun & HP & H0 & Hchain & Hnext & _).
  unfold one_more_day in H0, Hchain, Hnext.
  cbn [System.t0 System.t_end System.init] in H0, Hchain, Hnext.
  exists frame. rewrite run_simulation_14_12.
  split; [exact Hrun|]. split; [exact HP|]. split; [exact H0|].
  split; [|split].
  - intros t Ht. destruct (Hchain t) as (st & Hst & Hst'); [lia|].
    exists st. split; [exact Hst|exact Hst'].
  - intros t st st' Hst Hst'. exact (Hnext t st st' Hst Hst').
  - intros Hle. destruct (Hchain (System.t_end sys)) as (st & Hst & _); [lia|].
    eauto.
Qed.

(** C8, as the code has it: with [beta = 0], a recovery rate between 0 and 1
    and no negative infected fraction at the start, [run_simulation] returns
    a frame that has the rows of the days [t0 .. t_end] and in which, from
    any row to the row of the next day, the infected fraction does not grow;
    the two are equal only if [gamma = 0] or nobody is infected on the first
    of the two days.  In each of the two notebooks. *)
Theorem recovery_only_monotone (system : System.t) :
  System.beta system = 0 ->
  0 <= System.gamma system <= 1 ->
  0 <= State.I (System.init system) ->
  (exists frame,
     Chap12.run_simulation system Chap12.update_func = Some frame /\
     (forall t, (System.t0 system <= t <= System.t_end system - 1)%Z ->
        exists st st',
          TimeFrame.row_get t frame = Some st /\
          TimeFrame.row_get (t + 1) frame = Some st' /\
          State.I st' <= State.I st /\
          (State.I st' = State.I st ->
           System.gamma system = 0 \/ State.I st = 0)) /\
     (forall t st st',
        TimeFrame.row_get t frame = Some st ->
        TimeFrame.row_get (t + 1) frame = Some st' ->
        State.I st' <= State.I st /\
        (State.I st' = State.I st ->
         System.gamma system = 0 \/ State.I st = 0))) /\
  (exists frame,
     Chap14.run_simulation system Chap14.update_func = Some frame /\
     (forall t, (System.t0 system <= t <= System.t_end system - 1)%Z ->
        exists st st',
          TimeFrame.row_get t frame = Some st /\
          TimeFrame.row_get (t + 1) frame = Some st' /\
          State.I st' <= State.I st /\
          (State.I st' = State.I st ->
           System.gamma system = 0 \/ State.I st = 0)) /\
     (forall t st st',
        TimeFrame.row_get t frame = Some st ->
        TimeFrame.row_get (t + 1) frame = Some st' ->
        State.I st' <= State.I st /\
        (State.I st' = State.I st ->
         System.gamma system = 0 \/ State.I st = 0))).
Proof.
  intros Hbeta Hgamma Hinit.
  assert (Hstep : forall st t, 0 <= State.I st ->
                    0 <= State.I (Chap12.update_func st t system)).
  { intros st t Hst. rewrite update_func_recovery_only by assumption. nra. }
  assert (Hpair : forall st t, 0 <= State.I st ->
            State.I (Chap12.update_func st t system) <= State.I st /\
            (State.I (Chap12.update_func st t system) = State.I st ->
             System.gamma system = 0 \/ State.I st = 0)).
  { intros st t Hst. rewrite update_func_recovery_only by assumption. split.
    - nra.
    - intros Heq.
      destruct (Rmult_integral (System.gamma system) (State.I st)); auto.
      lra. }
  split.
  - destruct (run_simulation_trace system (fun st => 0 <= State.I st)
                Hstep Hinit)
      as (frame & Hrun & HP & _ & Hchain & Hnext & _).
    exists frame. split; [exact Hrun|]. split.
    + intros t Ht. destruct (Hchain t Ht) as (st & Hst & Hst').
      exists st, (Chap12.update_func st t system).
      split; [exact Hst|]. split; [exact Hst'|].
      apply Hpair. exact (HP _ _ Hst).
    + intros t st st' Hst Hst'. rewrite (Hnext t st st' Hst Hst').
      apply Hpair. exact (HP _ _ Hst).
  - destruct (run_simulation_trace_14 system (fun st => 0 <= State.I st)
                Hstep Hinit)
      as (frame & Hrun & HP & _ & Hchain & Hnext & _).
    exists frame. split; [exact Hrun|]. split.
    + intros t Ht. destruct (Hchain t) as (st & Hst & Hst'); [lia|].
      exists st, (Chap14.update_func st system).
      split; [exact Hst|]. split; [exact Hst'|].
      apply (Hpair st 0%Z). exact (HP _ _ Hst).
    + intros t st st' Hst Hst'. rewrite (Hnext t st st' Hst Hst').
      apply (Hpair st 0%Z). exact (HP _ _ Hst).
Qed.

Lemma recovery_only_monotone_witness :
  (exists frame st st',
     Chap12.run_simulation (Chap12.make_system 0 (1 / 4)) Chap12.update_func =
       Some frame /\
     TimeFrame.row_get 0 frame = Some st /\
     TimeFrame.row_get 1 frame = Some st' /\
     State.I st' <= State.I st) /\
  (exists frame st st',
     Chap14.run_simulation (Chap14.make_system 0 (1 / 4)) Chap14.update_func =
       Some frame /\
     TimeFrame.row_get 0 frame = Some st /\
     TimeFrame.row_get 1 frame = Some st' /\
     State.I st' <= State.I st).
Proof.
  destruct (recovery_only_monotone (Chap12.make_system 0 (1 / 4)))
    as [(frame & H12 & Hmono & _) (frame' & H14 & Hmono' & _)].
  - reflexivity.
  - simpl. lra.
  - rewrite make_system_12. simpl. lra.
  - split.
    + destruct (Hmono 0%Z) as (st & st' & Hst & Hst' & Hle & _);
        [simpl; lia|].
      exists frame, st, st'. repeat split; assumption.
    + destruct (Hmono' 0%Z) as (st & st' & Hst & Hst' & Hle & _);
        [simpl; lia|].
      exists frame', st, st'. repeat split; assumption.
Defined.

(** C8 as the spec states it fails: with [beta = 0] and [gamma = 2] the
    infected fraction goes from 1/90 to -1/90 and back up to 1/90; and with
    nobody infected the fraction stays equal although [gamma = 1/2].  In
    both notebooks. *)
Lemma recovery_only_counterexample :
  (let system := System.mk (State.mk (89 / 90) (1 / 90) 0) 0 3 0 2 in
   System.beta system = 0 /\ 0 <= System.gamma system /\
   0 <= State.I (System.init system) /\
   (exists frame st1 st2,
      Chap12.run_simulation system Chap12.update_func = Some frame /\
      TimeFrame.row_get 1 frame = Some st1 /\
      TimeFrame.row_get 2 frame = Some st2 /\
      State.I st1 = - (1 / 90) /\ State.I st2 = 1 / 90 /\
      ~ State.I st2 <= State.I st1) /\
   (exists frame st1 st2,
      Chap14.run_simulation system Chap14.update_func = Some frame /\
      TimeFrame.row_get 1 frame = Some st1 /\
      TimeFrame.row_get 2 frame = Some st2 /\
      State.I st1 = - (1 / 90) /\ State.I st2 = 1 / 90 /\
      ~ State.I st2 <= State.I st1)) /\
  (let system := System.mk (State.mk 1 0 0) 0 2 0 (1 / 2) in
   System.beta system = 0 /\ 0 <= System.gamma system /\
   0 <= State.I (System.init system) /\
   (exists frame st0 st1,
      Chap12.run_simulation system Chap12.update_func = Some frame /\
      TimeFrame.row_get 0 frame = Some st0 /\
      TimeFrame.row_get 1 frame = Some st1 /\
      State.I st1 = State.I st0 /\ System.gamma system <> 0) /\
   (exists frame st0 st1,
      Chap14.run_simulation system Chap14.update_func = Some frame /\
      TimeFrame.row_get 0 frame = Some st0 /\
      TimeFrame.row_get 1 frame = Some st1 /\
      State.I st1 = State.I st0 /\ System.gamma system <> 0)).
Proof.
  split; cbv zeta; simpl System.beta; simpl System.gamma; simpl System.init;
    simpl State.I.
  - split; [reflexivity|]. split; [lra|]. split; [lra|].
    split; eexists; eexists; eexists;
      (split; [reflexivity|]); (split; [reflexivity|]);
      (split; [reflexivity|]); simpl; repeat split; lra.
  - split; [reflexivity|]. split; [lra|]. split; [lra|].
    split; eexists; eexists; eexists;
      (split; [reflexivity|]); (split; [reflexivity|]);
      (split; [reflexivity|]); simpl; split; lra.
Qed.

(** ** Sweep series as insertion-ordered mappings *)

Lemma get_set_same (k v : R) (s : SweepSeries.t) :
  SweepSeries.get k (SweepSeries.set k v s) = Some v.
Proof.
  induction s as [|[k' v'] s IH]; simpl.
  - destruct (Req_dec_T k k); congruence.
  - destruct (Req_dec_T k' k) as [E|E]; simpl;
      destruct (Req_dec_T k' k); congruence.
Qed.

Lemma get_set_other (k k' v : R) (s : SweepSeries.t) :
  k <> k' ->
  SweepSeries.get k' (SweepSeries.set k v s) = SweepSeries.get k' s.
Proof.
  intros Hk. induction s as [|[k1 v1] s IH]; simpl.
  - destruct (Req_dec_T k k'); congruence.
  - destruct (Req_dec_T k1 k) as [E|E]; simpl.
    + subst k1. destruct (Req_dec_T k k'); congruence.
    + now rewrite IH.
Qed.

Lemma keys_set (k v : R) (s : SweepSeries.t) :
  SweepSeries.keys (SweepSeries.set k v s) =
    if in_dec Req_dec_T k (SweepSeries.keys s)
    then SweepSeries.keys s
    else SweepSeries.keys s ++ [k].
Proof.
  unfold SweepSeries.keys.
  induction s as [|[k1 v1] s IH]; simpl; auto.
  destruct (Req_dec_T k1 k) as [E|E]; simpl; auto.
  rewrite IH. destruct (in_dec Req_dec_T k (map fst s)); reflexivity.
Qed.

Lemma first_occurrences_from_In (x : R) (l seen : list R) :
  In x (first_occurrences_from seen l) <-> In x l /\ ~ In x seen.
Proof.
  revert seen. induction l as [|y l IH]; simpl; intros seen.
  - tauto.
  - destruct (in_dec Req_dec_T y seen) as [Hy|Hy].
    + rewrite IH. split; [tauto|].
      intros [[->|H] Hn]; [contradiction|tauto].
    + simpl. rewrite IH, in_app_iff. simpl.
      destruct (Req_dec_T y x) as [->|Hne]; tauto.
Qed.

Lemma first_occurrences_from_NoDup (l seen : list R) :
  NoDup (first_occurrences_from seen l).
Proof.
  revert seen. induction l as [|y l IH]; simpl; intros seen.
  - constructor.
  - destruct (in_dec Req_dec_T y seen); auto.
    constructor; auto.
    rewrite first_occurrences_from_In, in_app_iff. simpl. tauto.
Qed.

Lemma first_occurrences_from_id (l seen : list R) :
  NoDup l -> (forall x, In x l -> ~ In x seen) ->
  first_occurrences_from seen l = l.
Proof.
  intros Hl. revert seen. induction Hl as [|y l Hy Hl IH]; simpl; intros seen Hs.
  - reflexivity.
  - destruct (in_dec Req_dec_T y seen) as [Hin|_].
    + exfalso. apply (Hs y); auto.
    + f_equal. apply IH. intros x Hx. rewrite in_app_iff. simpl.
      intros [H|[->|[]]]; [apply (Hs x); auto | contradiction].
Qed.

Lemma first_occurrences_repeat (x : R) : first_occurrences [x; x] = [x].
Proof.
  unfold first_occurrences. cbn [first_occurrences_from].
  destruct (in_dec Req_dec_T x []) as [[]|_].
  destruct (in_dec Req_dec_T x ([] ++ [x])) as [_|H]; [reflexivity|].
  exfalso. apply H. simpl. auto.
Qed.

(** What the sweep loop records, when every summary can be computed. *)
Lemma record_all_spec (f : R -> option R) (l : list R) :
  (forall x, In x l -> exists v, f x = Some v) ->
  forall sw, exists sw',
    record_all f l sw = Some sw' /\
    SweepSeries.keys sw' =
      SweepSeries.keys sw ++ first_occurrences_from (SweepSeries.keys sw) l /\
    (forall k, In k l -> SweepSeries.get k sw' = f k) /\
    (forall k, ~ In k l -> SweepSeries.get k sw' = SweepSeries.get k sw).
Proof.
  induction l as [|x l IH]; intros Hf sw.
  - exists sw. simpl. rewrite app_nil_r. repeat split; auto. intros k [].
  - destruct (Hf x) as [v Hv]; [now left|].
    destruct (IH (fun y Hy => Hf y (or_intror Hy)) (SweepSeries.set x v sw))
      as (sw' & Hrun & Hkeys & Hin & Hout).
    exists sw'. simpl. rewrite Hv. simpl. split; [exact Hrun|]. split; [|split].
    + rewrite Hkeys, keys_set.
      destruct (in_dec Req_dec_T x (SweepSeries.keys sw)); auto.
      now rewrite <- app_assoc.
    + intros k Hk. destruct (in_dec Req_dec_T k l) as [Hl|Hl]; auto.
      destruct Hk as [->|Hk]; [|contradiction].
      rewrite Hout by assumption. rewrite Hv. apply get_set_same.
    + intros k Hk. rewrite Hout by tauto. apply get_set_other. tauto.
Qed.

(** ** The one-parameter sweeps *)

Lemma hand_washing_total_some (spending : R) :
  exists total, hand_washing_total spending = Some total.
Proof.
  unfold hand_washing_total. cbv zeta.
  destruct (calc_total_infected_some Chap12.update_func
              (Chap12.add_hand_washing
                 (Chap12.make_system Chap12.beta Chap12.gamma) spending))
    as (results & total & Hrun & Htotal).
  - simpl. lia.
  - exists total. rewrite Hrun. exact Htotal.
Qed.

Lemma sweep_hand_washing_loop_record_all (l : list R) (sw : SweepSeries.t) :
  Chap12.sweep_hand_washing_loop l sw = record_all hand_washing_total l sw.
Proof.
  revert sw. induction l as [|x l IH]; intros sw; [reflexivity|].
  cbn [Chap12.sweep_hand_washing_loop record_all].
  unfold hand_washing_total. cbv zeta.
  destruct (Chap12.run_simulation _ _) as [results|]; cbn [bind];
    [|reflexivity].
  destruct (Chap12.calc_total_infected _ _) as [total|]; cbn [bind];
    [|reflexivity].
  apply IH.
Qed.

Lemma hand_washing_total_unfold (spending total : R) :
  hand_washing_total spending = Some total ->
  let system :=
    Chap12.add_hand_washing (Chap12.make_system Chap12.beta Chap12.gamma)
      spending in
  exists results s0 s_end,
    Chap12.run_simulation system Chap12.update_func = Some results /\
    TimeFrame.S_at (System.t0 system) results = Some s0 /\
    TimeFrame.S_at (System.t_end system) results = Some s_end /\
    total = s0 - s_end.
Proof.
  unfold hand_washing_total. cbv zeta.
  destruct (Chap12.run_simulation _ _) as [results|] eqn:Hrun; cbn [bind];
    [|discriminate].
  unfold Chap12.calc_total_infected.
  destruct (TimeFrame.S_at (System.t0 _) results) as [s0|] eqn:H0;
    cbn [bind]; [|discriminate].
  destruct (TimeFrame.S_at (System.t_end _) results) as [s_end|] eqn:Hend;
    cbn [bind]; [|discriminate].
  intros H. injection H as <-. exists results, s0, s_end. auto.
Qed.

(** C5, as the code has it: [sweep_hand_washing] returns a series that holds one entry for each
    value of the input, keyed by the value, in the order in which the values
    first occur in the input (a value that occurs again overwrites its own
    entry, as in any mapping, so a sequence without repeats gives its own
    values as keys).  The entry of a value is the total infected, S at [t0]
    minus S at [t_end], of the simulation built for this value alone.  The
    empty sequence gives the empty series. *)
Theorem sweep_hand_washing_entries (spending_array : list R) :
  exists sweep,
    Chap12.sweep_hand_washing spending_array = Some sweep /\
    SweepSeries.keys sweep = first_occurrences spending_array /\
    NoDup (SweepSeries.keys sweep) /\
    (forall spending, In spending (SweepSeries.keys sweep) <->
                      In spending spending_array) /\
    (forall spending, In spending spending_array ->
       let system :=
         Chap12.add_hand_washing
           (Chap12.make_system Chap12.beta Chap12.gamma) spending in
       exists results s0 s_end,
         Chap12.run_simulation system Chap12.update_func = Some results /\
         TimeFrame.S_at (System.t0 system) results = Some s0 /\
         TimeFrame.S_at (System.t_end system) results = Some s_end /\
         SweepSeries.get spending sweep = Some (s0 - s_end)) /\
    (NoDup spending_array -> SweepSeries.keys sweep = spending_array) /\
    (spending_array = [] -> sweep = []).
Proof.
  destruct (record_all_spec hand_washing_total spending_array
              (fun x _ => hand_washing_total_some x) SweepSeries.empty)
    as (sweep & Hrun & Hkeys & Hin & _).
  simpl in Hkeys. fold (first_occurrences spending_array) in Hkeys.
  exists sweep.
  split; [|split; [exact Hkeys|split; [|split; [|split; [|split]]]]].
  - unfold Chap12.sweep_hand_washing. cbv zeta.
    now rewrite sweep_hand_washing_loop_record_all.
  - rewrite Hkeys. apply first_occurrences_from_NoDup.
  - intros v. rewrite Hkeys. unfold first_occurrences.
    rewrite first_occurrences_from_In. simpl. tauto.
  - intros v Hv. destruct (hand_washing_total_some v) as [total Htotal].
    destruct (hand_washing_total_unfold v total Htotal)
      as (results & s0 & s_end & Hres & H0 & Hend & ->).
    exists results, s0, s_end. repeat split; auto.
    rewrite Hin by assumption. exact Htotal.
  - intros Hnd. rewrite Hkeys. apply first_occurrences_from_id; auto.
  - intros ->. simpl in Hrun. injection Hrun as <-. reflexivity.
Qed.

Lemma sweep_hand_washing_entries_witness :
  exists sweep results s0 s_end,
    Chap12.sweep_hand_washing [0; 600; 1200] = Some sweep /\
    SweepSeries.keys sweep = [0; 600; 1200] /\
    Chap12.run_simulation
      (Chap12.add_hand_washing (Chap12.make_system Chap12.beta Chap12.gamma)
         600) Chap12.update_func = Some results /\
    TimeFrame.S_at 0 results = Some s0 /\
    TimeFrame.S_at 98 results = Some s_end /\
    SweepSeries.get 600 sweep = Some (s0 - s_end).
Proof.
  destruct (sweep_hand_washing_entries [0; 600; 1200])
    as (sweep & Hrun & _ & _ & _ & Hget & Hkeys & _).
  destruct (Hget 600) as (results & s0 & s_end & Hres & H0 & Hend & Hentry).
  - simpl. auto.
  - exists sweep, results, s0, s_end. repeat split; auto.
    apply Hkeys. distinct_reals.
Defined.

(** C5 as the spec states it fails: a value that occurs twice in the input
    gets one entry, not two: the sweep of [0, 0] has the single key 0. *)
Lemma sweep_hand_washing_counterexample :
  exists sweep,
    Chap12.sweep_hand_washing [0; 0] = Some sweep /\
    SweepSeries.keys sweep = [0] /\
    length sweep = 1%nat /\
    length sweep <> length [0; 0].
Proof.
  destruct (record_all_spec hand_washing_total [0; 0]
              (fun x _ => hand_washing_total_some x) SweepSeries.empty)
    as (sweep & Hrun & Hkeys & _).
  change (SweepSeries.keys sweep = first_occurrences [0; 0]) in Hkeys.
  rewrite first_occurrences_repeat in Hkeys.
  assert (Hlen : length sweep = 1%nat).
  { rewrite <- (length_map fst). unfold SweepSeries.keys in Hkeys.
    now rewrite Hkeys. }
  exists sweep. split; [|split; [exact Hkeys|split; [exact Hlen|]]].
  - unfold Chap12.sweep_hand_washing. cbv zeta.
    now rewrite sweep_hand_washing_loop_record_all.
  - rewrite Hlen. simpl. lia.
Qed.

Lemma calc_total_infected_some_14 (sys : System.t) :
  (System.t0 sys <= System.t_end sys)%Z ->
  exists results total,
    Chap14.run_simulation sys Chap14.update_func = Some results /\
    Chap14.calc_total_infected results sys = Some total.
Proof.
  intros Hle.
  destruct (run_simulation_trace_14 sys (fun _ => True))
    as (frame & Hrun & _ & H0 & _ & _ & Hend); auto.
  destruct (Hend Hle) as (st_end & Hst_end).
  exists frame. eexists. split; [exact Hrun|].
  unfold Chap14.calc_total_infected, TimeFrame.S_at.
  rewrite H0, Hst_end. reflexivity.
Qed.

Lemma total_infected_some (beta gamma : R) :
  exists total, total_infected beta gamma = Some total.
Proof.
  unfold total_infected. cbv zeta.
  destruct (calc_total_infected_some_14 (Chap14.make_system beta gamma))
    as (results & total & Hrun & Htotal).
  - simpl. lia.
  - exists total. rewrite Hrun. exact Htotal.
Qed.

Lemma sweep_beta_loop_record_all (l : list R) (gamma : R)
    (sw : SweepSeries.t) :
  Chap14.sweep_beta_loop l gamma sw =
  record_all (fun beta => total_infected beta gamma) l sw.
Proof.
  revert sw. induction l as [|x l IH]; intros sw; [reflexivity|].
  cbn [Chap14.sweep_beta_loop record_all].
  unfold total_infected. cbv zeta.
  destruct (Chap14.run_simulation _ _) as [results|]; cbn [bind];
    [|reflexivity].
  destruct (Chap14.calc_total_infected _ _) as [total|]; cbn [bind];
    [|reflexivity].
  apply IH.
Qed.

Lemma total_infected_unfold (beta gamma total : R) :
  total_infected beta gamma = Some total ->
  let system := Chap14.make_system beta gamma in
  exists results s0 s_end,
    Chap14.run_simulation system Chap14.update_func = Some results /\
    TimeFrame.S_at (System.t0 system) results = Some s0 /\
    TimeFrame.S_at (System.t_end system) results = Some s_end /\
    total = s0 - s_end.
Proof.
  unfold total_infected. cbv zeta.
  destruct (Chap14.run_simulation _ _) as [results|] eqn:Hrun; cbn [bind];
    [|discriminate].
  unfold Chap14.calc_total_infected.
  destruct (TimeFrame.S_at (System.t0 _) results) as [s0|] eqn:H0;
    cbn [bind]; [|discriminate].
  destruct (TimeFrame.S_at (System.t_end _) results) as [s_end|] eqn:Hend;
    cbn [bind]; [|discriminate].
  intros H. injection H as <-. exists results, s0, s_end. auto.
Qed.

(** The one-parameter sweep of chap14 over [beta_array], [gamma] fixed. *)
Lemma sweep_beta_spec (beta_array : list R) (gamma : R) :
  exists series,
    Chap14.sweep_beta beta_array gamma = Some series /\
    SweepSeries.keys series = first_occurrences beta_array /\
    forall beta, In beta beta_array ->
      exists total,
        total_infected beta gamma = Some total /\
        SweepSeries.get beta series = Some total.
Proof.
  destruct (record_all_spec (fun beta => total_infected beta gamma) beta_array
              (fun x _ => total_infected_some x gamma) SweepSeries.empty)
    as (series & Hrun & Hkeys & Hin & _).
  exists series. split; [|split].
  - unfold Chap14.sweep_beta. cbv zeta.
    now rewrite sweep_beta_loop_record_all.
  - exact Hkeys.
  - intros beta Hbeta. destruct (total_infected_some beta gamma) as [x Hx].
    exists x. split; [exact Hx|]. rewrite Hin by assumption. exact Hx.
Qed.

(** ** Sweep frames *)

Lemma has_label_true (c : R) (col : R * list (option R)) :
  SweepFrame.has_label c col = true <-> fst col = c.
Proof.
  unfold SweepFrame.has_label.
  destruct (Req_dec_T (fst col) c); split; auto; discriminate.
Qed.

Lemma assign_present (c : R) (cells : list (option R))
    (cols : list (R * list (option R))) :
  In c (map fst cols) ->
  SweepFrame.assign c cells cols =
    map (fun col => if SweepFrame.has_label c col then (fst col, cells) else col)
      cols.
Proof.
  intros Hc. unfold SweepFrame.assign.
  replace (existsb (SweepFrame.has_label c) cols) with true; auto.
  symmetry. apply existsb_exists.
  apply in_map_iff in Hc. destruct Hc as (col & Hfst & Hin).
  exists col. split; auto. now apply has_label_true.
Qed.

Lemma assign_labels (c : R) (cells : list (option R))
    (cols : list (R * list (option R))) :
  In c (map fst cols) ->
  map fst (SweepFrame.assign c cells cols) = map fst cols.
Proof.
  intros Hc. rewrite assign_present by assumption. rewrite map_map.
  apply map_ext. intros col. now destruct (SweepFrame.has_label c col).
Qed.

Lemma assign_In (c l : R) (cells x : list (option R))
    (cols : list (R * list (option R))) :
  In c (map fst cols) ->
  In (l, x) (SweepFrame.assign c cells cols) ->
  (l = c /\ x = cells) \/ (l <> c /\ In (l, x) cols).
Proof.
  intros Hc. rewrite assign_present by assumption. rewrite in_map_iff.
  intros (col & Heq & Hin).
  destruct (SweepFrame.has_label c col) eqn:E.
  - apply has_label_true in E. left. split; congruence.
  - right. subst col. split; auto.
    intros ->. assert (SweepFrame.has_label c (c, x) = true)
      by now apply has_label_true.
    congruence.
Qed.

Lemma ensure_index_labels (s : SweepSeries.t) (f : SweepFrame.t) :
  map fst (SweepFrame.columns (SweepFrame.ensure_index s f)) =
  map fst (SweepFrame.columns f).
Proof.
  unfold SweepFrame.ensure_index.
  destruct (SweepFrame.index f); auto. destruct s; auto.
  simpl. rewrite map_map. reflexivity.
Qed.

Lemma find_has_label (c : R) (cols : list (R * list (option R))) :
  In c (map fst cols) ->
  exists cells, find (SweepFrame.has_label c) cols = Some (c, cells) /\
                In (c, cells) cols.
Proof.
  induction cols as [|[l x] cols IH]; simpl; [tauto|].
  intros H. destruct (SweepFrame.has_label c (l, x)) eqn:E.
  - apply has_label_true in E. simpl in E. subst l. exists x. auto.
  - destruct H as [H|H].
    + subst l. assert (SweepFrame.has_label c (c, x) = true)
        by now apply has_label_true.
      congruence.
    + destruct (IH H) as (cells & Hf & Hin). exists cells. auto.
Qed.

Lemma reindex_keys (s : SweepSeries.t) :
  NoDup (SweepSeries.keys s) ->
  combine (SweepSeries.keys s) (SweepFrame.reindex (SweepSeries.keys s) s) =
  map (fun e => (fst e, Some (snd e))) s.
Proof.
  unfold SweepFrame.reindex, SweepSeries.keys.
  induction s as [|[k v] s IH]; simpl; intros Hnd; [reflexivity|].
  inversion Hnd as [|? ? Hk Hnd']; subst.
  destruct (Req_dec_T k k) as [_|]; [|congruence].
  f_equal. rewrite <- IH by assumption. f_equal.
  apply map_ext_in. intros a Ha.
  destruct (Req_dec_T k a) as [->|_]; [contradiction|reflexivity].
Qed.

Lemma lookup_series (a : R) (s : SweepSeries.t) :
  SweepFrame.lookup a (map (fun e => (fst e, Some (snd e))) s) =
  option_map Some (SweepSeries.get a s).
Proof.
  induction s as [|[k v] s IH]; simpl; [reflexivity|].
  destruct (Req_dec_T k a); auto.
Qed.

Lemma set_column_assigned (beta_array labels done : list R) (gamma : R)
    (series : SweepSeries.t) (f : SweepFrame.t) :
  assigned beta_array labels done f ->
  In gamma labels ->
  Chap14.sweep_beta beta_array gamma = Some series ->
  SweepSeries.keys series = first_occurrences beta_array ->
  assigned beta_array labels (done ++ [gamma])
    (SweepFrame.set_column gamma series f).
Proof.
  intros (Hlab & Hidx & Hdone & Hcols) Hgamma Hsweep Hkeys.
  assert (Hidx' : SweepFrame.index (SweepFrame.ensure_index series f) =
                  first_occurrences beta_array).
  { unfold SweepFrame.ensure_index.
    destruct (SweepFrame.index f) as [|r idx] eqn:Hi.
    - destruct series as [|e series]; simpl; auto.
      rewrite Hi. now rewrite <- Hkeys.
    - rewrite Hi. destruct Hidx as [Hidx|Hidx]; [discriminate|exact Hidx]. }
  assert (Hlab' : In gamma
            (map fst (SweepFrame.columns (SweepFrame.ensure_index series f)))).
  { rewrite ensure_index_labels, Hlab. exact Hgamma. }
  unfold SweepFrame.set_column. cbv zeta. rewrite Hidx'.
  split; [|split; [|split]]; cbn [SweepFrame.index SweepFrame.columns].
  - rewrite assign_labels by assumption. now rewrite ensure_index_labels.
  - now right.
  - reflexivity.
  - intros l cells s' Hin Hl Hs'.
    apply assign_In in Hin; [|assumption].
    destruct Hin as [[-> ->]|[Hne Hin]].
    + congruence.
    + apply in_app_iff in Hl. destruct Hl as [Hl|[Hl|[]]]; [|congruence].
      assert (Hnonempty : done <> []) by (intros ->; contradiction).
      specialize (Hdone Hnonempty).
      assert (Hsame : SweepFrame.ensure_index series f = f).
      { unfold SweepFrame.ensure_index.
        destruct (SweepFrame.index f) as [|r idx] eqn:Hi; auto.
        destruct series as [|e series]; auto.
        rewrite <- Hdone in Hkeys. discriminate. }
      rewrite Hsame in Hin. eapply Hcols; eauto.
Qed.

Lemma sweep_parameters_loop_assigned (beta_array labels : list R) :
  forall rest done f,
    assigned beta_array labels done f ->
    (forall gamma, In gamma rest -> In gamma labels) ->
    exists f',
      Chap14.sweep_parameters_loop beta_array rest f = Some f' /\
      assigned beta_array labels (done ++ rest) f'.
Proof.
  induction rest as [|gamma rest IH]; intros done f Hf Hrest.
  - exists f. rewrite app_nil_r. auto.
  - destruct (sweep_beta_spec beta_array gamma) as (series & Hs & Hkeys & _).
    cbn [Chap14.sweep_parameters_loop]. rewrite Hs. cbn [bind].
    destruct (IH (done ++ [gamma]) (SweepFrame.set_column gamma series f))
      as (f' & Hrun & Hf').
    + apply set_column_assigned; auto. apply Hrest. now left.
    + intros g Hg. apply Hrest. now right.
    + exists f'. split; [exact Hrun|].
      now rewrite <- app_assoc in Hf'.
Qed.

(** The table of [sweep_parameters], for any two lists. *)
Lemma sweep_parameters_spec (beta_array gamma_array : list R) :
  exists frame,
    Chap14.sweep_parameters beta_array gamma_array = Some frame /\
    map fst (SweepFrame.columns frame) = gamma_array /\
    (gamma_array <> [] ->
     SweepFrame.index frame = first_occurrences beta_array) /\
    (gamma_array = [] -> SweepFrame.index frame = []) /\
    (forall gamma, In gamma gamma_array ->
       exists series,
         Chap14.sweep_beta beta_array gamma = Some series /\
         SweepFrame.get_column gamma frame =
           Some (map (fun e => (fst e, Some (snd e))) series) /\
         forall beta, In beta beta_array ->
           exists total,
             total_infected beta gamma = Some total /\
             SweepFrame.cell beta gamma frame = Some (Some total)).
Proof.
  destruct (sweep_parameters_loop_assigned beta_array gamma_array
              gamma_array [] (SweepFrame.create gamma_array))
    as (frame & Hrun & Hlab & Hidx & Hdone & Hcols); auto.
  { split; [|split; [|split]]; simpl; auto.
    - rewrite map_map. simpl. apply map_id.
    - congruence.
    - intros l cells series _ []. }
  simpl in Hdone, Hcols.
  exists frame. split; [exact Hrun|]. split; [exact Hlab|].
  split; [exact Hdone|]. split.
  - intros ->. unfold Chap14.sweep_parameters in Hrun. simpl in Hrun.
    injection Hrun as <-. reflexivity.
  - intros gamma Hgamma.
    destruct (sweep_beta_spec beta_array gamma) as (series & Hs & Hkeys & Hget).
    assert (Hne : gamma_array <> []) by (intros ->; contradiction).
    exists series. split; [exact Hs|].
    assert (Hcol : SweepFrame.get_column gamma frame =
                   Some (map (fun e => (fst e, Some (snd e))) series)).
    { unfold SweepFrame.get_column.
      destruct (find_has_label gamma (SweepFrame.columns frame))
        as (cells & Hfind & Hin); [now rewrite Hlab|].
      rewrite Hfind. simpl. f_equal.
      rewrite (Hcols _ _ _ Hin Hgamma Hs), (Hdone Hne), <- Hkeys.
      apply reindex_keys. rewrite Hkeys.
      apply first_occurrences_from_NoDup. }
    split; [exact Hcol|].
    intros beta Hbeta. destruct (Hget beta Hbeta) as (total & Htotal & Hentry).
    exists total. split; [exact Htotal|].
    unfold SweepFrame.cell. rewrite Hcol. cbn [bind].
    rewrite lookup_series, Hentry. reflexivity.
Qed.

(** ** The two-parameter sweep *)

(** C4, as the code has it: [sweep_parameters] returns a table whose
    columns are labelled by [gamma_array], one per element.  For a non-empty
    [gamma_array] its rows are the distinct values of [beta_array] in the
    order of their first occurrence (so [beta_array] itself, and as many
    rows as it is long, when no value is repeated); the column of each gamma
    is the series of [sweep_beta] over [beta_array] with this gamma, and the
    cell at (beta, gamma) is the total infected of the simulation for this
    pair.  For an empty [gamma_array] the table has no column and no row. *)
Theorem sweep_parameters_table (beta_array gamma_array : list R) :
  exists frame,
    Chap14.sweep_parameters beta_array gamma_array = Some frame /\
    map fst (SweepFrame.columns frame) = gamma_array /\
    (gamma_array <> [] ->
     SweepFrame.index frame = first_occurrences beta_array /\
     SweepFrame.shape frame =
       (length (first_occurrences beta_array), length gamma_array) /\
     (NoDup beta_array ->
      SweepFrame.index frame = beta_array /\
      SweepFrame.shape frame = (length beta_array, length gamma_array))) /\
    (gamma_array = [] ->
     frame = SweepFrame.mk [] [] /\
     SweepFrame.shape frame = (0%nat, 0%nat)) /\
    (forall gamma, In gamma gamma_array ->
       exists series,
         Chap14.sweep_beta beta_array gamma = Some series /\
         SweepFrame.get_column gamma frame =
           Some (map (fun e => (fst e, Some (snd e))) series) /\
         forall beta, In beta beta_array ->
           let system := Chap14.make_system beta gamma in
           exists results s0 s_end,
             Chap14.run_simulation system Chap14.update_func = Some results /\
             TimeFrame.S_at (System.t0 system) results = Some s0 /\
             TimeFrame.S_at (System.t_end system) results = Some s_end /\
             SweepFrame.cell beta gamma frame = Some (Some (s0 - s_end))).
Proof.
  destruct (sweep_parameters_spec beta_array gamma_array)
    as (frame & Hrun & Hlab & Hidx & _ & Hcols).
  exists frame.
  split; [exact Hrun|]. split; [exact Hlab|]. split; [|split].
  - intros Hne. specialize (Hidx Hne).
    assert (Hshape : SweepFrame.shape frame =
              (length (first_occurrences beta_array), length gamma_array)).
    { unfold SweepFrame.shape.
      rewrite Hidx, <- Hlab, length_map. reflexivity. }
    split; [exact Hidx|]. split; [exact Hshape|].
    intros Hnd. split.
    + rewrite Hidx. now apply first_occurrences_from_id.
    + rewrite Hshape. unfold first_occurrences.
      rewrite first_occurrences_from_id; auto.
  - intros ->. unfold Chap14.sweep_parameters in Hrun. simpl in Hrun.
    injection Hrun as <-. split; reflexivity.
  - intros gamma Hgamma.
    destruct (Hcols gamma Hgamma) as (series & Hs & Hcol & Hcell).
    exists series. split; [exact Hs|]. split; [exact Hcol|].
    intros beta Hbeta. cbv zeta.
    destruct (Hcell beta Hbeta) as (total & Htotal & Hc).
    destruct (total_infected_unfold beta gamma total Htotal)
      as (results & s0 & s_end & Hres & H0 & Hend & ->).
    exists results, s0, s_end. auto.
Qed.

Lemma sweep_parameters_table_witness :
  (exists frame results s0 s_end,
     Chap14.sweep_parameters [1 / 3; 1 / 2] [1 / 4] = Some frame /\
     SweepFrame.shape frame = (2%nat, 1%nat) /\
     Chap14.run_simulation (Chap14.make_system (1 / 3) (1 / 4))
       Chap14.update_func = Some results /\
     TimeFrame.S_at 0 results = Some s0 /\
     TimeFrame.S_at 98 results = Some s_end /\
     SweepFrame.cell (1 / 3) (1 / 4) frame = Some (Some (s0 - s_end))) /\
  Chap14.sweep_parameters [1 / 3; 1 / 2] [] = Some (SweepFrame.mk [] []).
Proof.
  split.
  - destruct (sweep_parameters_table [1 / 3; 1 / 2] [1 / 4])
      as (frame & Hrun & _ & Hrows & _ & Hcols).
    destruct Hrows as (_ & _ & Hshape); [discriminate|].
    destruct (Hcols (1 / 4)) as (series & _ & _ & Hcell); [simpl; auto|].
    destruct (Hcell (1 / 3))
      as (results & s0 & s_end & Hres & H0 & Hend & Hc); [simpl; auto|].
    exists frame, results, s0, s_end. repeat split; auto.
    apply Hshape. distinct_reals.
  - destruct (sweep_parameters_table [1 / 3; 1 / 2] [])
      as (frame & Hrun & _ & _ & Hempty & _).
    destruct (Hempty eq_refl) as [-> _]. exact Hrun.
Defined.

(** C4 as the spec states it fails: a value repeated in [beta_array] gets one
    row, not one per occurrence, and with an empty [gamma_array] the table
    has no row at all. *)
Lemma sweep_parameters_counterexample :
  (exists frame,
     Chap14.sweep_parameters [1 / 3; 1 / 3] [1 / 4] = Some frame /\
     SweepFrame.shape frame = (1%nat, 1%nat) /\
     fst (SweepFrame.shape frame) <> length [1 / 3; 1 / 3]) /\
  (exists frame,
     Chap14.sweep_parameters [1 / 3] [] = Some frame /\
     SweepFrame.shape frame = (0%nat, 0%nat) /\
     fst (SweepFrame.shape frame) <> length [1 / 3]).
Proof.
  split.
  - destruct (sweep_parameters_spec [1 / 3; 1 / 3] [1 / 4])
      as (frame & Hrun & Hlab & Hidx & _).
    assert (Hshape : SweepFrame.shape frame = (1%nat, 1%nat)).
    { unfold SweepFrame.shape.
      rewrite Hidx by discriminate.
      rewrite first_occurrences_repeat, <- (length_map fst), Hlab.
      reflexivity. }
    exists frame. split; [exact Hrun|]. split; [exact Hshape|].
    rewrite Hshape. simpl. lia.
  - exists (SweepFrame.mk [] []). split; [reflexivity|].
    split; [reflexivity|]. simpl. lia.
Qed.

(** * Further properties of the notebooks' code *)

(** ** The frame of a run, in closed form *)

Lemma row_set_new (k : Z) (st : State.t) (f : TimeFrame.t) :
  TimeFrame.row_get k f = None -> TimeFrame.row_set k st f = f ++ [(k, st)].
Proof.
  induction f as [|[k1 st1] f IH]; simpl; intros H; auto.
  destruct (Z.eqb k1 k); [discriminate|]. now rewrite IH.
Qed.

Lemma row_get_app_last (a : Z) (st : State.t) (pre : TimeFrame.t) :
  TimeFrame.row_get a pre = None ->
  TimeFrame.row_get a (pre ++ [(a, st)]) = Some st.
Proof.
  induction pre as [|[k1 st1] pre IH]; simpl; intros H.
  - now rewrite Z.eqb_refl.
  - destruct (Z.eqb k1 a); [discriminate|auto].
Qed.

Lemma index_orbit (u : State.t -> Z -> System.t -> State.t) (sys : System.t)
    (n : nat) :
  forall a st, TimeFrame.index (orbit u sys a st n) = zrange a (S n).
Proof.
  unfold TimeFrame.index.
  induction n as [|n IH]; intros a st; [reflexivity|].
  cbn [orbit zrange map fst]. f_equal. apply IH.
Qed.

Lemma length_orbit (u : State.t -> Z -> System.t -> State.t) (sys : System.t)
    (a : Z) (st : State.t) (n : nat) :
  length (orbit u sys a st n) = S n.
Proof. now rewrite <- index_length, index_orbit, length_zrange. Qed.

Lemma run_loop_orbit (u : State.t -> Z -> System.t -> State.t)
    (sys : System.t) (n : nat) :
  forall a st pre c,
    (forall k, In k (TimeFrame.index pre) -> (k < a)%Z) ->
    Chap12.run_loop u sys (zrange a n) (pre ++ [(a, st)]) c =
      Some (pre ++ orbit u sys a st n, (c + n)%nat).
Proof.
  induction n as [|n IH]; intros a st pre c Hpre.
  - simpl. now rewrite Nat.add_0_r.
  - assert (Ha : TimeFrame.row_get a pre = None).
    { apply row_get_None_iff. intros H. apply Hpre in H. lia. }
    cbn [zrange Chap12.run_loop orbit].
    rewrite row_get_app_last by exact Ha. cbn [bind].
    rewrite row_set_new.
    + rewrite IH.
      * rewrite <- app_assoc. simpl. do 2 f_equal. lia.
      * intros k Hk. unfold TimeFrame.index in Hk.
        rewrite map_app, in_app_iff in Hk. simpl in Hk.
        destruct Hk as [Hk|[<-|[]]]; [apply Hpre in Hk|]; lia.
    + apply row_get_None_iff. unfold TimeFrame.index.
      rewrite map_app, in_app_iff. simpl.
      intros [Hk|[Hk|[]]]; [apply Hpre in Hk|]; lia.
Qed.

Lemma run_simulation_12_orbit (u : State.t -> Z -> System.t -> State.t)
    (sys : System.t) :
  Chap12.run_simulation sys u =
    Some (orbit u sys (System.t0 sys) (System.init sys)
            (Z.to_nat (System.t_end sys - System.t0 sys))).
Proof.
  unfold Chap12.run_simulation, Chap12.run_simulation_counting, linrange.
  cbv zeta.
  replace (System.t_end sys - 1 - System.t0 sys + 1)%Z
    with (System.t_end sys - System.t0 sys)%Z by lia.
  change (TimeFrame.row_set (System.t0 sys) (System.init sys) TimeFrame.empty)
    with ([] ++ [(System.t0 sys, System.init sys)]).
  rewrite run_loop_orbit by (intros k []). reflexivity.
Qed.

(** The update rule reads nothing of the System but the two rates, and
    nothing of the day. *)
Lemma update_func_rates (st : State.t) (t t' : Z) (sys sys' : System.t) :
  System.beta sys = System.beta sys' ->
  System.gamma sys = System.gamma sys' ->
  Chap12.update_func st t sys = Chap12.update_func st t' sys'.
Proof.
  intros Hb Hg. destruct st as [s i r]. simpl. now rewrite Hb, Hg.
Qed.

Lemma orbit_states (sys sys' : System.t) (n : nat) :
  System.beta sys = System.beta sys' ->
  System.gamma sys = System.gamma sys' ->
  forall a a' st,
    map snd (orbit Chap12.update_func sys a st n) =
    map snd (orbit Chap12.update_func sys' a' st n).
Proof.
  intros Hb Hg. induction n as [|n IH]; intros a a' st; [reflexivity|].
  cbn [orbit map snd]. f_equal.
  rewrite (update_func_rates st a a' sys sys' Hb Hg). apply IH.
Qed.

Lemma orbit_firstn (sys sys' : System.t) (n m : nat) :
  System.beta sys = System.beta sys' ->
  System.gamma sys = System.gamma sys' ->
  forall a st,
    firstn (S n) (orbit Chap12.update_func sys' a st (n + m)) =
    orbit Chap12.update_func sys a st n.
Proof.
  intros Hb Hg. induction n as [|n IH]; intros a st.
  - cbn [orbit firstn]. destruct (0 + m)%nat; reflexivity.
  - cbn [Nat.add orbit]. rewrite firstn_cons. f_equal.
    rewrite (update_func_rates st a a sys sys' Hb Hg). apply IH.
Qed.

Lemma orbit_rates (u u' : State.t -> Z -> System.t -> State.t)
    (sys sys' : System.t) (n : nat) :
  (forall st t, u st t sys = u' st t sys') ->
  forall a st, orbit u sys a st n = orbit u' sys' a st n.
Proof.
  intros Hu. induction n as [|n IH]; intros a st; [reflexivity|].
  cbn [orbit]. f_equal. rewrite Hu. apply IH.
Qed.

Lemma run_simulation_14_orbit (sys : System.t) :
  Chap14.run_simulation sys Chap14.update_func =
    Some (orbit (fun st _ s => Chap14.update_func st s) sys
            (System.t0 sys) (System.init sys)
            (Z.to_nat (System.t_end sys - System.t0 sys + 1))).
Proof.
  rewrite run_simulation_14_12, run_simulation_12_orbit.
  unfold one_more_day. cbn [System.t0 System.t_end System.init].
  replace (System.t_end sys + 1 - System.t0 sys)%Z
    with (System.t_end sys - System.t0 sys + 1)%Z by lia.
  f_equal. apply orbit_rates. reflexivity.
Qed.

(** X1: the frame that [run_simulation] returns is, row for row, the list
    of the days [t0], [t0 + 1], ... paired with the initial State and its
    successive updates, in day order and with no other row.  chap12's frame
    holds [max (t_end - t0) 0] updates; chap14's, whose loop also visits
    [t_end], holds [max (t_end - t0 + 1) 0]. *)
Theorem run_simulation_orbit (system : System.t) :
  Chap12.run_simulation system Chap12.update_func =
    Some (orbit Chap12.update_func system (System.t0 system)
            (System.init system)
            (Z.to_nat (System.t_end system - System.t0 system))) /\
  Chap14.run_simulation system Chap14.update_func =
    Some (orbit (fun st _ s => Chap14.update_func st s) system
            (System.t0 system) (System.init system)
            (Z.to_nat (System.t_end system - System.t0 system + 1))).
Proof.
  split; [apply run_simulation_12_orbit|apply run_simulation_14_orbit].
Qed.

Lemma run_simulation_12_index (sys : System.t) :
  exists frame,
    Chap12.run_simulation sys Chap12.update_func = Some frame /\
    TimeFrame.index frame =
      zrange (System.t0 sys)
        (S (Z.to_nat (System.t_end sys - System.t0 sys))) /\
    forall t, TimeFrame.row_get t frame = None <->
      (t < System.t0 sys \/
       System.t0 sys +
       Z.of_nat (Z.to_nat (System.t_end sys - System.t0 sys)) < t)%Z.
Proof.
  eexists. split; [apply run_simulation_12_orbit|].
  rewrite index_orbit. split; [reflexivity|].
  intros t. rewrite row_get_None_iff, index_orbit, In_zrange. lia.
Qed.

(** X2: for a System with [t0 <= t_end] the row labels of chap12's frame
    are exactly the days [t0 .. t_end], in increasing order, and reading
    [frame.row[t]] succeeds for these days and for no other (a [KeyError]
    outside); chap14's frame has the days [t0 .. t_end + 1]. *)
Theorem run_simulation_days (system : System.t) :
  (System.t0 system <= System.t_end system)%Z ->
  (exists frame,
     Chap12.run_simulation system Chap12.update_func = Some frame /\
     TimeFrame.index frame =
       zrange (System.t0 system)
         (Z.to_nat (System.t_end system - System.t0 system + 1)) /\
     forall t, TimeFrame.row_get t frame = None <->
               (t < System.t0 system \/ System.t_end system < t)%Z) /\
  (exists frame,
     Chap14.run_simulation system Chap14.update_func = Some frame /\
     TimeFrame.index frame =
       zrange (System.t0 system)
         (Z.to_nat (System.t_end system - System.t0 system + 2)) /\
     forall t, TimeFrame.row_get t frame = None <->
               (t < System.t0 system \/ System.t_end system + 1 < t)%Z).
Proof.
  intros Hle. split.
  - destruct (run_simulation_12_index system) as (frame & Hrun & Hidx & Hnone).
    exists frame. split; [exact Hrun|]. split.
    + rewrite Hidx. f_equal. lia.
    + intros t. rewrite Hnone. lia.
  - destruct (run_simulation_12_index (one_more_day system))
      as (frame & Hrun & Hidx & Hnone).
    unfold one_more_day in Hidx, Hnone.
    cbn [System.t0 System.t_end] in Hidx, Hnone.
    exists frame. rewrite run_simulation_14_12.
    split; [exact Hrun|]. split.
    + rewrite Hidx. f_equal. lia.
    + intros t. rewrite Hnone. lia.
Qed.

Lemma run_simulation_days_witness :
  (exists frame,
     Chap12.run_simulation (Chap12.make_system (1 / 3) (1 / 4))
       Chap12.update_func = Some frame /\
     TimeFrame.row_get 99 frame = None) /\
  (exists frame,
     Chap14.run_simulation (Chap14.make_system (1 / 3) (1 / 4))
       Chap14.update_func = Some frame /\
     TimeFrame.row_get 100 frame = None).
Proof.
  destruct (run_simulation_days (Chap12.make_system (1 / 3) (1 / 4)))
    as [(frame & Hrun & _ & Hnone) (frame' & Hrun' & _ & Hnone')].
  - simpl. lia.
  - split; [exists frame|exists frame']; (split; [assumption|]).
    + apply Hnone. simpl. lia.
    + apply Hnone'. simpl. lia.
Defined.

Lemma zrange_shift (d : Z) (n : nat) :
  forall a, zrange (a + d) n = map (fun t => (t + d)%Z) (zrange a n).
Proof.
  induction n as [|n IH]; intros a; [reflexivity|].
  cbn [zrange map]. f_equal.
  replace (a + d + 1)%Z with (a + 1 + d)%Z by lia. apply IH.
Qed.

Lemma run_simulation_shift_12 (sys sys' : System.t) :
  System.init sys = System.init sys' ->
  System.beta sys = System.beta sys' ->
  System.gamma sys = System.gamma sys' ->
  (System.t_end sys - System.t0 sys = System.t_end sys' - System.t0 sys')%Z ->
  exists frame frame',
    Chap12.run_simulation sys Chap12.update_func = Some frame /\
    Chap12.run_simulation sys' Chap12.update_func = Some frame' /\
    map snd frame' = map snd frame /\
    TimeFrame.index frame' =
      map (fun t => (t + (System.t0 sys' - System.t0 sys))%Z)
        (TimeFrame.index frame).
Proof.
  intros Hinit Hb Hg Hn. do 2 eexists.
  split; [apply run_simulation_12_orbit|].
  split; [apply run_simulation_12_orbit|].
  rewrite <- Hn, <- Hinit. split.
  - symmetry. now apply orbit_states.
  - rewrite !index_orbit, <- zrange_shift. f_equal. lia.
Qed.

(** X3: the States of a run depend on the initial State, the two rates and
    the number of steps only: two Systems that agree on these return frames
    with the same States in the same order, the days shifted by the
    difference of the start days.  In each of the two notebooks. *)
Theorem run_simulation_shift (system system' : System.t) :
  System.init system = System.init system' ->
  System.beta system = System.beta system' ->
  System.gamma system = System.gamma system' ->
  (System.t_end system - System.t0 system =
   System.t_end system' - System.t0 system')%Z ->
  (exists frame frame',
     Chap12.run_simulation system Chap12.update_func = Some frame /\
     Chap12.run_simulation system' Chap12.update_func = Some frame' /\
     map snd frame' = map snd frame /\
     TimeFrame.index frame' =
       map (fun t => (t + (System.t0 system' - System.t0 system))%Z)
         (TimeFrame.index frame)) /\
  (exists frame frame',
     Chap14.run_simulation system Chap14.update_func = Some frame /\
     Chap14.run_simulation system' Chap14.update_func = Some frame' /\
     map snd frame' = map snd frame /\
     TimeFrame.index frame' =
       map (fun t => (t + (System.t0 system' - System.t0 system))%Z)
         (TimeFrame.index frame)).
Proof.
  intros Hinit Hb Hg Hn. split.
  - now apply run_simulation_shift_12.
  - rewrite !run_simulation_14_12.
    apply (run_simulation_shift_12 (one_more_day system)
             (one_more_day system')); auto.
    unfold one_more_day. cbn [System.t0 System.t_end]. lia.
Qed.

Lemma run_simulation_shift_witness :
  (exists frame frame',
     Chap12.run_simulation (Chap12.make_system (1 / 3) (1 / 4))
       Chap12.update_func = Some frame /\
     Chap12.run_simulation
       (System.mk (State.mk (89 / 90) (1 / 90) 0) 2 100 (1 / 3) (1 / 4))
       Chap12.update_func = Some frame' /\
     map snd frame' = map snd frame) /\
  (exists frame frame',
     Chap14.run_simulation (Chap12.make_system (1 / 3) (1 / 4))
       Chap14.update_func = Some frame /\
     Chap14.run_simulation
       (System.mk (State.mk (89 / 90) (1 / 90) 0) 2 100 (1 / 3) (1 / 4))
       Chap14.update_func = Some frame' /\
     map snd frame' = map snd frame).
Proof.
  destruct (run_simulation_shift (Chap12.make_system (1 / 3) (1 / 4))
              (System.mk (State.mk (89 / 90) (1 / 90) 0) 2 100 (1 / 3) (1 / 4)))
    as [(frame & frame' & H & H' & Hst & _)
        (fr & fr' & H14 & H14' & Hst14 & _)].
  - rewrite make_system_12. reflexivity.
  - reflexivity.
  - reflexivity.
  - reflexivity.
  - split; [exists frame, frame'|exists fr, fr']; repeat split; assumption.
Defined.

Lemma run_simulation_extends_12 (sys sys' : System.t) :
  System.init sys = System.init sys' ->
  System.t0 sys = System.t0 sys' ->
  System.beta sys = System.beta sys' ->
  System.gamma sys = System.gamma sys' ->
  (System.t0 sys <= System.t_end sys <= System.t_end sys')%Z ->
  exists frame frame',
    Chap12.run_simulation sys Chap12.update_func = Some frame /\
    Chap12.run_simulation sys' Chap12.update_func = Some frame' /\
    firstn (length frame) frame' = frame.
Proof.
  intros Hinit Ht0 Hb Hg Hle. do 2 eexists.
  split; [apply run_simulation_12_orbit|].
  split; [apply run_simulation_12_orbit|].
  rewrite length_orbit, <- Hinit, <- Ht0.
  set (n := Z.to_nat (System.t_end sys - System.t0 sys)).
  replace (Z.to_nat (System.t_end sys' - System.t0 sys))
    with (n + Z.to_nat (System.t_end sys' - System.t_end sys))%nat
    by (unfold n; lia).
  now apply orbit_firstn.
Qed.

(** X4: running longer only appends rows: when [system'] is [system] with
    a later [t_end], the frame of [system] is the beginning of the frame of
    [system'].  In each of the two notebooks. *)
Theorem run_simulation_extends (system system' : System.t) :
  System.init system = System.init system' ->
  System.t0 system = System.t0 system' ->
  System.beta system = System.beta system' ->
  System.gamma system = System.gamma system' ->
  (System.t0 system <= System.t_end system <= System.t_end system')%Z ->
  (exists frame frame',
     Chap12.run_simulation system Chap12.update_func = Some frame /\
     Chap12.run_simulation system' Chap12.update_func = Some frame' /\
     firstn (length frame) frame' = frame) /\
  (exists frame frame',
     Chap14.run_simulation system Chap14.update_func = Some frame /\
     Chap14.run_simulation system' Chap14.update_func = Some frame' /\
     firstn (length frame) frame' = frame).
Proof.
  intros Hinit Ht0 Hb Hg Hle. split.
  - now apply run_simulation_extends_12.
  - rewrite !run_simulation_14_12.
    apply (run_simulation_extends_12 (one_more_day system)
             (one_more_day system')); auto.
    unfold one_more_day. cbn [System.t0 System.t_end]. lia.
Qed.

Lemma run_simulation_extends_witness :
  (exists frame frame',
     Chap12.run_simulation
       (System.mk (State.mk (89 / 90) (1 / 90) 0) 0 14 (1 / 3) (1 / 4))
       Chap12.update_func = Some frame /\
     Chap12.run_simulation (Chap12.make_system (1 / 3) (1 / 4))
       Chap12.update_func = Some frame' /\
     firstn (length frame) frame' = frame) /\
  (exists frame frame',
     Chap14.run_simulation
       (System.mk (State.mk (89 / 90) (1 / 90) 0) 0 14 (1 / 3) (1 / 4))
       Chap14.update_func = Some frame /\
     Chap14.run_simulation (Chap12.make_system (1 / 3) (1 / 4))
       Chap14.update_func = Some frame' /\
     firstn (length frame) frame' = frame).
Proof.
  destruct (run_simulation_extends
              (System.mk (State.mk (89 / 90) (1 / 90) 0) 0 14 (1 / 3) (1 / 4))
              (Chap12.make_system (1 / 3) (1 / 4)))
    as [(frame & frame' & H & H' & Hpre) (fr & fr' & H14 & H14' & Hpre14)].
  - rewrite make_system_12. reflexivity.
  - reflexivity.
  - reflexivity.
  - reflexivity.
  - simpl. lia.
  - split; [exists frame, frame'|exists fr, fr']; repeat split; assumption.
Defined.

(** ** What a run keeps *)

Lemma calc_total_infected_rows (results : TimeFrame.t) (sys : System.t)
    (st0 st_end : State.t) :
  TimeFrame.row_get (System.t0 sys) results = Some st0 ->
  TimeFrame.row_get (System.t_end sys) results = Some st_end ->
  Chap12.calc_total_infected results sys =
    Some (State.S st0 - State.S st_end).
Proof.
  intros H0 Hend. unfold Chap12.calc_total_infected, TimeFrame.S_at.
  now rewrite H0, Hend.
Qed.

Lemma calc_total_infected_rows_14 (results : TimeFrame.t) (sys : System.t)
    (st0 st_end : State.t) :
  TimeFrame.row_get (System.t0 sys) results = Some st0 ->
  TimeFrame.row_get (System.t_end sys) results = Some st_end ->
  Chap14.calc_total_infected results sys =
    Some (State.S st0 - State.S st_end).
Proof.
  intros H0 Hend. unfold Chap14.calc_total_infected, TimeFrame.S_at.
  now rewrite H0, Hend.
Qed.

Lemma update_func_valid_12 (st : State.t) (t : Z) (sys : System.t) :
  0 <= System.beta sys <= 1 ->
  0 <= System.gamma sys <= 1 ->
  valid_state st ->
  valid_state (Chap12.update_func st t sys) /\
  State.S (Chap12.update_func st t sys) <= State.S st /\
  State.R st <= State.R (Chap12.update_func st t sys).
Proof.
  destruct st as [s i r]. unfold valid_state, State_sum. simpl.
  intros Hb Hg (Hs & Hi & Hr & Hsum).
  assert (Hi1 : i <= 1) by lra.
  assert (Hbi : 0 <= System.beta sys * i <= 1) by nra.
  assert (Hbis : 0 <= System.beta sys * i * s) by nra.
  assert (Hbis' : System.beta sys * i * s <= s) by nra.
  assert (Hgi : 0 <= System.gamma sys * i <= i) by nra.
  repeat split; lra.
Qed.

(** X5: one application of the update rule, with both rates between 0 and
    1, to a State of non-negative fractions that sum to 1 gives again such a
    State; S does not grow and R does not shrink.  In both notebooks. *)
Theorem update_func_keeps_valid (state : State.t) (t : Z) (system : System.t) :
  0 <= System.beta system <= 1 ->
  0 <= System.gamma system <= 1 ->
  valid_state state ->
  valid_state (Chap12.update_func state t system) /\
  valid_state (Chap14.update_func state system) /\
  State.S (Chap12.update_func state t system) <= State.S state /\
  State.S (Chap14.update_func state system) <= State.S state /\
  State.R state <= State.R (Chap12.update_func state t system) /\
  State.R state <= State.R (Chap14.update_func state system).
Proof.
  intros Hb Hg Hv. rewrite (update_func_14_12 state t system).
  destruct (update_func_valid_12 state t system Hb Hg Hv) as (H1 & H2 & H3).
  auto 7.
Qed.

Lemma update_func_keeps_valid_witness :
  valid_state (Chap12.update_func (State.mk (89 / 90) (1 / 90) 0) 0
                 (Chap12.make_system (1 / 3) (1 / 4))).
Proof.
  apply (update_func_keeps_valid (State.mk (89 / 90) (1 / 90) 0) 0
           (Chap12.make_system (1 / 3) (1 / 4))).
  - simpl. lra.
  - simpl. lra.
  - unfold valid_state, State_sum. simpl. lra.
Defined.

Lemma valid_step (sys : System.t) :
  0 <= System.beta sys <= 1 ->
  0 <= System.gamma sys <= 1 ->
  forall st t, valid_state st -> valid_state (Chap12.update_func st t sys).
Proof.
  intros Hb Hg st t Hst. now apply update_func_valid_12.
Qed.

(** X6: with both rates between 0 and 1 and an initial State of
    non-negative fractions summing to 1, every row of the frame that
    [run_simulation] returns is such a State, and from any row to the row of
    the next day S does not grow and R does not shrink.  In each of the two
    notebooks. *)
Theorem run_simulation_keeps_valid (system : System.t) :
  0 <= System.beta system <= 1 ->
  0 <= System.gamma system <= 1 ->
  valid_state (System.init system) ->
  (exists frame,
     Chap12.run_simulation system Chap12.update_func = Some frame /\
     (forall t st, TimeFrame.row_get t frame = Some st -> valid_state st) /\
     (forall t st st',
        TimeFrame.row_get t frame = Some st ->
        TimeFrame.row_get (t + 1) frame = Some st' ->
        State.S st' <= State.S st /\ State.R st <= State.R st')) /\
  (exists frame,
     Chap14.run_simulation system Chap14.update_func = Some frame /\
     (forall t st, TimeFrame.row_get t frame = Some st -> valid_state st) /\
     (forall t st st',
        TimeFrame.row_get t frame = Some st ->
        TimeFrame.row_get (t + 1) frame = Some st' ->
        State.S st' <= State.S st /\ State.R st <= State.R st')).
Proof.
  intros Hb Hg Hv. split.
  - destruct (run_simulation_trace system valid_state
                (valid_step system Hb Hg) Hv)
      as (frame & Hrun & HP & _ & _ & Hnext & _).
    exists frame. split; [exact Hrun|]. split; [exact HP|].
    intros t st st' Hst Hst'. rewrite (Hnext t st st' Hst Hst').
    destruct (update_func_valid_12 st t system Hb Hg (HP _ _ Hst))
      as (_ & HS & HR).
    split; assumption.
  - destruct (run_simulation_trace_14 system valid_state
                (valid_step system Hb Hg) Hv)
      as (frame & Hrun & HP & _ & _ & Hnext & _).
    exists frame. split; [exact Hrun|]. split; [exact HP|].
    intros t st st' Hst Hst'. rewrite (Hnext t st st' Hst Hst').
    destruct (update_func_valid_12 st 0%Z system Hb Hg (HP _ _ Hst))
      as (_ & HS & HR).
    split; assumption.
Qed.

Lemma run_simulation_keeps_valid_witness :
  (exists frame,
     Chap12.run_simulation (Chap12.make_system (1 / 3) (1 / 4))
       Chap12.update_func = Some frame /\
     forall t st, TimeFrame.row_get t frame = Some st -> valid_state st) /\
  (exists frame,
     Chap14.run_simulation (Chap14.make_system (1 / 3) (1 / 4))
       Chap14.update_func = Some frame /\
     forall t st, TimeFrame.row_get t frame = Some st -> valid_state st).
Proof.
  destruct (run_simulation_keeps_valid (Chap12.make_system (1 / 3) (1 / 4)))
    as [(frame & H12 & Hvalid & _) (frame' & H14 & Hvalid' & _)].
  - simpl. lra.
  - simpl. lra.
  - rewrite make_system_12. unfold valid_state, State_sum. simpl. lra.
  - split; [exists frame|exists frame']; split; assumption.
Defined.

Lemma below_init_step (sys : System.t) :
  0 <= System.beta sys <= 1 ->
  0 <= System.gamma sys <= 1 ->
  forall st t,
    valid_state st /\ State.S st <= State.S (System.init sys) ->
    valid_state (Chap12.update_func st t sys) /\
    State.S (Chap12.update_func st t sys) <= State.S (System.init sys).
Proof.
  intros Hb Hg st t [Hst HS].
  destruct (update_func_valid_12 st t sys Hb Hg Hst) as (H1 & H2 & _).
  split; [exact H1|lra].
Qed.

Lemma calc_total_infected_range (sys : System.t) :
  0 <= System.beta sys <= 1 ->
  0 <= System.gamma sys <= 1 ->
  valid_state (System.init sys) ->
  (System.t0 sys <= System.t_end sys)%Z ->
  exists frame total,
    Chap12.run_simulation sys Chap12.update_func = Some frame /\
    Chap12.calc_total_infected frame sys = Some total /\
    0 <= total <= State.S (System.init sys).
Proof.
  intros Hb Hg Hv Hle.
  destruct (run_simulation_trace sys
              (fun st => valid_state st /\
                         State.S st <= State.S (System.init sys))
              (below_init_step sys Hb Hg))
    as (frame & H12 & HP & H0 & _ & _ & Hend).
  { split; [exact Hv|lra]. }
  destruct (Hend Hle) as (st_end & Hst_end).
  exists frame, (State.S (System.init sys) - State.S st_end).
  rewrite (calc_total_infected_rows frame sys _ _ H0 Hst_end).
  split; [exact H12|]. split; [reflexivity|].
  destruct (HP _ _ Hst_end) as [(HS & _) HS']. lra.
Qed.

Lemma calc_total_infected_range_14 (sys : System.t) :
  0 <= System.beta sys <= 1 ->
  0 <= System.gamma sys <= 1 ->
  valid_state (System.init sys) ->
  (System.t0 sys <= System.t_end sys)%Z ->
  exists frame total,
    Chap14.run_simulation sys Chap14.update_func = Some frame /\
    Chap14.calc_total_infected frame sys = Some total /\
    0 <= total <= State.S (System.init sys).
Proof.
  intros Hb Hg Hv Hle.
  destruct (run_simulation_trace_14 sys
              (fun st => valid_state st /\
                         State.S st <= State.S (System.init sys))
              (below_init_step sys Hb Hg))
    as (frame & H14 & HP & H0 & _ & _ & Hend).
  { split; [exact Hv|lra]. }
  destruct (Hend Hle) as (st_end & Hst_end).
  exists frame, (State.S (System.init sys) - State.S st_end).
  rewrite (calc_total_infected_rows_14 frame sys _ _ H0 Hst_end).
  split; [exact H14|]. split; [reflexivity|].
  destruct (HP _ _ Hst_end) as [(HS & _) HS']. lra.
Qed.

(** X7: under the same conditions and with [t0 <= t_end],
    [calc_total_infected] of the frame that [run_simulation] returns is a
    number between 0 and the initial susceptible fraction.  In each of the
    two notebooks. *)
Theorem calc_total_infected_bounds (system : System.t) :
  0 <= System.beta system <= 1 ->
  0 <= System.gamma system <= 1 ->
  valid_state (System.init system) ->
  (System.t0 system <= System.t_end system)%Z ->
  (exists frame total,
     Chap12.run_simulation system Chap12.update_func = Some frame /\
     Chap12.calc_total_infected frame system = Some total /\
     0 <= total <= State.S (System.init system)) /\
  (exists frame total,
     Chap14.run_simulation system Chap14.update_func = Some frame /\
     Chap14.calc_total_infected frame system = Some total /\
     0 <= total <= State.S (System.init system)).
Proof.
  intros Hb Hg Hv Hle. split.
  - now apply calc_total_infected_range.
  - now apply calc_total_infected_range_14.
Qed.

Lemma calc_total_infected_bounds_witness :
  (exists frame total,
     Chap12.run_simulation (Chap12.make_system (1 / 3) (1 / 4))
       Chap12.update_func = Some frame /\
     Chap12.calc_total_infected frame (Chap12.make_system (1 / 3) (1 / 4)) =
       Some total /\
     0 <= total <= 89 / 90) /\
  (exists frame total,
     Chap14.run_simulation (Chap14.make_system (1 / 3) (1 / 4))
       Chap14.update_func = Some frame /\
     Chap14.calc_total_infected frame (Chap14.make_system (1 / 3) (1 / 4)) =
       Some total /\
     0 <= total <= 89 / 90).
Proof.
  destruct (calc_total_infected_bounds (Chap12.make_system (1 / 3) (1 / 4)))
    as [(frame & total & H12 & Htotal & Hbounds)
        (frame' & total' & H14 & Htotal' & Hbounds')].
  - simpl. lra.
  - simpl. lra.
  - rewrite make_system_12. unfold valid_state, State_sum. simpl. lra.
  - simpl. lia.
  - rewrite make_system_12 in Hbounds, Hbounds'.
    split; [exists frame, total|exists frame', total'];
      repeat split; try assumption; apply Hbounds || apply Hbounds'.
Defined.

Lemma keeps_R_step (sys : System.t) :
  System.gamma sys = 0 ->
  forall st t,
    State.R st = State.R (System.init sys) ->
    State.R (Chap12.update_func st t sys) = State.R (System.init sys).
Proof.
  intros Hg [s i r] t. simpl. intros ->. rewrite Hg. ring.
Qed.

(** X8: without recovery ([gamma = 0]) the R component of every row of the
    run is the R component of the initial State, whatever beta and the
    initial State are.  In each of the two notebooks. *)
Theorem no_recovery_keeps_R (system : System.t) :
  System.gamma system = 0 ->
  (exists frame,
     Chap12.run_simulation system Chap12.update_func = Some frame /\
     forall t st, TimeFrame.row_get t frame = Some st ->
       State.R st = State.R (System.init system)) /\
  (exists frame,
     Chap14.run_simulation system Chap14.update_func = Some frame /\
     forall t st, TimeFrame.row_get t frame = Some st ->
       State.R st = State.R (System.init system)).
Proof.
  intros Hg. split.
  - destruct (run_simulation_trace system
                (fun st => State.R st = State.R (System.init system))
                (keeps_R_step system Hg) eq_refl)
      as (frame & Hrun & HP & _).
    exists frame. split; assumption.
  - destruct (run_simulation_trace_14 system
                (fun st => State.R st = State.R (System.init system))
                (keeps_R_step system Hg) eq_refl)
      as (frame & Hrun & HP & _).
    exists frame. split; assumption.
Qed.

Lemma no_recovery_keeps_R_witness :
  (exists frame,
     Chap12.run_simulation (Chap12.make_system (1 / 3) 0) Chap12.update_func =
       Some frame /\
     forall t st, TimeFrame.row_get t frame = Some st -> State.R st = 0) /\
  (exists frame,
     Chap14.run_simulation (Chap14.make_system (1 / 3) 0) Chap14.update_func =
       Some frame /\
     forall t st, TimeFrame.row_get t frame = Some st -> State.R st = 0).
Proof.
  destruct (no_recovery_keeps_R (Chap12.make_system (1 / 3) 0))
    as [(frame & H12 & HR) (frame' & H14 & HR')].
  - reflexivity.
  - split; [exists frame|exists frame']; (split; [assumption|]);
      intros t st Hst.
    + rewrite (HR t st Hst), make_system_12. reflexivity.
    + rewrite (HR' t st Hst), make_system_12. reflexivity.
Defined.

Lemma keeps_S_step (sys : System.t) :
  System.beta sys = 0 ->
  forall st t,
    State.S st = State.S (System.init sys) ->
    State.S (Chap12.update_func st t sys) = State.S (System.init sys).
Proof.
  intros Hb [s i r] t. simpl. intros ->. rewrite Hb. ring.
Qed.

(** X9: without contact ([beta = 0]) the S component of every row of the
    run is the S component of the initial State, and for [t0 <= t_end]
    [calc_total_infected] returns 0.  In each of the two notebooks. *)
Theorem no_contact_keeps_S (system : System.t) :
  System.beta system = 0 ->
  (exists frame,
     Chap12.run_simulation system Chap12.update_func = Some frame /\
     (forall t st, TimeFrame.row_get t frame = Some st ->
        State.S st = State.S (System.init system)) /\
     ((System.t0 system <= System.t_end system)%Z ->
      Chap12.calc_total_infected frame system = Some 0)) /\
  (exists frame,
     Chap14.run_simulation system Chap14.update_func = Some frame /\
     (forall t st, TimeFrame.row_get t frame = Some st ->
        State.S st = State.S (System.init system)) /\
     ((System.t0 system <= System.t_end system)%Z ->
      Chap14.calc_total_infected frame system = Some 0)).
Proof.
  intros Hb. split.
  - destruct (run_simulation_trace system
                (fun st => State.S st = State.S (System.init system))
                (keeps_S_step system Hb) eq_refl)
      as (frame & Hrun & HP & H0 & _ & _ & Hend).
    exists frame. split; [exact Hrun|]. split; [exact HP|].
    intros Hle. destruct (Hend Hle) as (st_end & Hst_end).
    rewrite (calc_total_infected_rows frame system _ _ H0 Hst_end).
    rewrite (HP _ _ Hst_end). f_equal. ring.
  - destruct (run_simulation_trace_14 system
                (fun st => State.S st = State.S (System.init system))
                (keeps_S_step system Hb) eq_refl)
      as (frame & Hrun & HP & H0 & _ & _ & Hend).
    exists frame. split; [exact Hrun|]. split; [exact HP|].
    intros Hle. destruct (Hend Hle) as (st_end & Hst_end).
    rewrite (calc_total_infected_rows_14 frame system _ _ H0 Hst_end).
    rewrite (HP _ _ Hst_end). f_equal. ring.
Qed.

Lemma no_contact_keeps_S_witness :
  (exists frame,
     Chap12.run_simulation (Chap12.make_system 0 (1 / 4)) Chap12.update_func =
       Some frame /\
     Chap12.calc_total_infected frame (Chap12.make_system 0 (1 / 4)) =
       Some 0) /\
  (exists frame,
     Chap14.run_simulation (Chap14.make_system 0 (1 / 4)) Chap14.update_func =
       Some frame /\
     Chap14.calc_total_infected frame (Chap14.make_system 0 (1 / 4)) =
       Some 0).
Proof.
  destruct (no_contact_keeps_S (Chap12.make_system 0 (1 / 4)))
    as [(frame & H12 & _ & Htotal) (frame' & H14 & _ & Htotal')].
  - reflexivity.
  - split; [exists frame|exists frame']; (split; [assumption|]).
    + apply Htotal. simpl. lia.
    + apply Htotal'. simpl. lia.
Defined.

Lemma below_threshold_step (sys : System.t) (st : State.t) (t : Z) :
  0 <= System.beta sys ->
  System.beta sys * State.S (System.init sys) <= System.gamma sys ->
  valid_state st ->
  State.S st <= State.S (System.init sys) ->
  State.I (Chap12.update_func st t sys) <= State.I st.
Proof.
  intros Hb Hthreshold (HS0 & HI0 & _) HS.
  destruct st as [s i r]. simpl in *.
  assert (System.beta sys * s <= System.gamma sys) by nra.
  nra.
Qed.

(** X10: below the epidemic threshold, that is with
    [beta * S(t0) <= gamma], rates between 0 and 1 and an initial State of
    non-negative fractions summing to 1, the infected fraction never grows
    from a row of the frame to the row of the next day.  In each of the two
    notebooks. *)
Theorem below_threshold_no_outbreak (system : System.t) :
  0 <= System.beta system <= 1 ->
  0 <= System.gamma system <= 1 ->
  valid_state (System.init system) ->
  System.beta system * State.S (System.init system) <= System.gamma system ->
  (exists frame,
     Chap12.run_simulation system Chap12.update_func = Some frame /\
     forall t st st',
       TimeFrame.row_get t frame = Some st ->
       TimeFrame.row_get (t + 1) frame = Some st' ->
       State.I st' <= State.I st) /\
  (exists frame,
     Chap14.run_simulation system Chap14.update_func = Some frame /\
     forall t st st',
       TimeFrame.row_get t frame = Some st ->
       TimeFrame.row_get (t + 1) frame = Some st' ->
       State.I st' <= State.I st).
Proof.
  intros Hb Hg Hv Hthreshold.
  assert (Hinit : valid_state (System.init system) /\
                  State.S (System.init system) <=
                  State.S (System.init system))
    by (split; [exact Hv|lra]).
  split.
  - destruct (run_simulation_trace system _ (below_init_step system Hb Hg)
                Hinit)
      as (frame & Hrun & HP & _ & _ & Hnext & _).
    exists frame. split; [exact Hrun|].
    intros t st st' Hst Hst'. rewrite (Hnext t st st' Hst Hst').
    destruct (HP _ _ Hst) as [Hvalid HS].
    apply below_threshold_step; auto. lra.
  - destruct (run_simulation_trace_14 system _ (below_init_step system Hb Hg)
                Hinit)
      as (frame & Hrun & HP & _ & _ & Hnext & _).
    exists frame. split; [exact Hrun|].
    intros t st st' Hst Hst'. rewrite (Hnext t st st' Hst Hst').
    destruct (HP _ _ Hst) as [Hvalid HS].
    apply (below_threshold_step system st 0%Z); auto. lra.
Qed.

Lemma below_threshold_no_outbreak_witness :
  (exists frame,
     Chap12.run_simulation (Chap12.make_system (1 / 5) (1 / 4))
       Chap12.update_func = Some frame /\
     forall st st',
       TimeFrame.row_get 0 frame = Some st ->
       TimeFrame.row_get 1 frame = Some st' ->
       State.I st' <= State.I st) /\
  (exists frame,
     Chap14.run_simulation (Chap14.make_system (1 / 5) (1 / 4))
       Chap14.update_func = Some frame /\
     forall st st',
       TimeFrame.row_get 0 frame = Some st ->
       TimeFrame.row_get 1 frame = Some st' ->
       State.I st' <= State.I st).
Proof.
  destruct (below_threshold_no_outbreak (Chap12.make_system (1 / 5) (1 / 4)))
    as [(frame & H12 & Hmono) (frame' & H14 & Hmono')].
  - simpl. lra.
  - simpl. lra.
  - rewrite make_system_12. unfold valid_state, State_sum. simpl. lra.
  - rewrite make_system_12. simpl. lra.
  - split; [exists frame|exists frame']; (split; [assumption|]);
      intros st st' Hst Hst'.
    + exact (Hmono 0%Z st st' Hst Hst').
    + exact (Hmono' 0%Z st st' Hst Hst').
Defined.

Lemma keeps_sum_step (sys : System.t) :
  forall st t,
    State_sum st = State_sum (System.init sys) ->
    State_sum (Chap12.update_func st t sys) = State_sum (System.init sys).
Proof. intros st t Hst. now rewrite update_func_sum. Qed.

(** X11: for [t0 <= t_end], what [calc_total_infected] returns for a run is
    what I + R gained between the first day and the day [t_end]: the
    fraction that left S is the fraction that entered I or R.  No condition
    on the rates or on the State; in each of the two notebooks. *)
Theorem calc_total_infected_gain (system : System.t) :
  (System.t0 system <= System.t_end system)%Z ->
  (exists frame st_end,
     Chap12.run_simulation system Chap12.update_func = Some frame /\
     TimeFrame.row_get (System.t_end system) frame = Some st_end /\
     Chap12.calc_total_infected frame system =
       Some (State.I st_end + State.R st_end -
             (State.I (System.init system) +
              State.R (System.init system)))) /\
  (exists frame st_end,
     Chap14.run_simulation system Chap14.update_func = Some frame /\
     TimeFrame.row_get (System.t_end system) frame = Some st_end /\
     Chap14.calc_total_infected frame system =
       Some (State.I st_end + State.R st_end -
             (State.I (System.init system) +
              State.R (System.init system)))).
Proof.
  intros Hle. split.
  - destruct (run_simulation_trace system
                (fun st => State_sum st = State_sum (System.init system))
                (keeps_sum_step system) eq_refl)
      as (frame & Hrun & HP & H0 & _ & _ & Hend).
    destruct (Hend Hle) as (st_end & Hst_end).
    exists frame, st_end. split; [exact Hrun|]. split; [exact Hst_end|].
    rewrite (calc_total_infected_rows frame system _ _ H0 Hst_end).
    specialize (HP _ _ Hst_end). unfold State_sum in HP.
    f_equal. lra.
  - destruct (run_simulation_trace_14 system
                (fun st => State_sum st = State_sum (System.init system))
                (keeps_sum_step system) eq_refl)
      as (frame & Hrun & HP & H0 & _ & _ & Hend).
    destruct (Hend Hle) as (st_end & Hst_end).
    exists frame, st_end. split; [exact Hrun|]. split; [exact Hst_end|].
    rewrite (calc_total_infected_rows_14 frame system _ _ H0 Hst_end).
    specialize (HP _ _ Hst_end). unfold State_sum in HP.
    f_equal. lra.
Qed.

Lemma calc_total_infected_gain_witness :
  (exists frame st_end,
     Chap12.run_simulation (Chap12.make_system (1 / 3) (1 / 4))
       Chap12.update_func = Some frame /\
     TimeFrame.row_get 98 frame = Some st_end /\
     Chap12.calc_total_infected frame (Chap12.make_system (1 / 3) (1 / 4)) =
       Some (State.I st_end + State.R st_end -
             (State.I (System.init (Chap12.make_system (1 / 3) (1 / 4))) +
              State.R (System.init (Chap12.make_system (1 / 3) (1 / 4)))))) /\
  (exists frame st_end,
     Chap14.run_simulation (Chap12.make_system (1 / 3) (1 / 4))
       Chap14.update_func = Some frame /\
     TimeFrame.row_get 98 frame = Some st_end /\
     Chap14.calc_total_infected frame (Chap12.make_system (1 / 3) (1 / 4)) =
       Some (State.I st_end + State.R st_end -
             (State.I (System.init (Chap12.make_system (1 / 3) (1 / 4))) +
              State.R (System.init (Chap12.make_system (1 / 3) (1 / 4)))))).
Proof.
  destruct (calc_total_infected_gain (Chap12.make_system (1 / 3) (1 / 4)))
    as [(frame & st_end & H12 & Hend & Htotal)
        (frame' & st_end' & H14 & Hend' & Htotal')].
  - simpl. lia.
  - split; [exists frame, st_end|exists frame', st_end'];
      repeat split; assumption.
Defined.

Lemma run_simulation_12_single (u : State.t -> Z -> System.t -> State.t)
    (sys : System.t) :
  (System.t_end sys <= System.t0 sys)%Z ->
  Chap12.run_simulation sys u = Some [(System.t0 sys, System.init sys)].
Proof.
  intros Hle. rewrite run_simulation_12_orbit.
  replace (Z.to_nat (System.t_end sys - System.t0 sys)) with O by lia.
  reflexivity.
Qed.

(** X12: the summary of a degenerate run.  For a System with
    [t_end < t0] the frame that [run_simulation] returns has the row [t0]
    only and none for [t_end], so [calc_total_infected] fails on it (a
    [KeyError], [None] here); for [t_end = t0] it returns 0.  In each of the
    two notebooks. *)
Theorem calc_total_infected_degenerate (system : System.t) :
  ((System.t_end system < System.t0 system)%Z ->
   (exists frame,
      Chap12.run_simulation system Chap12.update_func = Some frame /\
      Chap12.calc_total_infected frame system = None) /\
   (exists frame,
      Chap14.run_simulation system Chap14.update_func = Some frame /\
      Chap14.calc_total_infected frame system = None)) /\
  (System.t_end system = System.t0 system ->
   (exists frame,
      Chap12.run_simulation system Chap12.update_func = Some frame /\
      Chap12.calc_total_infected frame system = Some 0) /\
   (exists frame,
      Chap14.run_simulation system Chap14.update_func = Some frame /\
      Chap14.calc_total_infected frame system = Some 0)).
Proof.
  split.
  - intros Hlt.
    assert (Hnone : Chap12.calc_total_infected
                      [(System.t0 system, System.init system)] system = None).
    { unfold Chap12.calc_total_infected, TimeFrame.S_at. simpl.
      rewrite Z.eqb_refl. simpl.
      destruct (Z.eqb_spec (System.t0 system) (System.t_end system));
        [lia|reflexivity]. }
    split; exists [(System.t0 system, System.init system)].
    + split; [apply run_simulation_12_single; lia|exact Hnone].
    + split; [|exact Hnone].
      rewrite run_simulation_14_12.
      rewrite (run_simulation_12_single Chap12.update_func
                 (one_more_day system)); [reflexivity|].
      unfold one_more_day. cbn [System.t0 System.t_end]. lia.
  - intros Heq. split.
    + exists [(System.t0 system, System.init system)].
      split; [apply run_simulation_12_single; lia|].
      unfold Chap12.calc_total_infected, TimeFrame.S_at. simpl.
      rewrite Heq, Z.eqb_refl. simpl. f_equal. ring.
    + destruct (run_simulation_trace_14 system (fun _ => True))
        as (frame & Hrun & _ & H0 & _ & _ & _); auto.
      exists frame. split; [exact Hrun|].
      assert (Hend := H0). rewrite <- Heq in Hend at 1.
      rewrite (calc_total_infected_rows_14 frame system _ _ H0 Hend).
      f_equal. ring.
Qed.

Lemma calc_total_infected_degenerate_witness :
  (exists frame,
     Chap12.run_simulation
       (System.mk (State.mk (89 / 90) (1 / 90) 0) 5 3 (1 / 3) (1 / 4))
       Chap12.update_func = Some frame /\
     Chap12.calc_total_infected frame
       (System.mk (State.mk (89 / 90) (1 / 90) 0) 5 3 (1 / 3) (1 / 4)) =
       None) /\
  (exists frame,
     Chap14.run_simulation
       (System.mk (State.mk (89 / 90) (1 / 90) 0) 3 3 (1 / 3) (1 / 4))
       Chap14.update_func = Some frame /\
     Chap14.calc_total_infected frame
       (System.mk (State.mk (89 / 90) (1 / 90) 0) 3 3 (1 / 3) (1 / 4)) =
       Some 0).
Proof.
  split.
  - apply (proj1 (calc_total_infected_degenerate
                    (System.mk (State.mk (89 / 90) (1 / 90) 0) 5 3
                       (1 / 3) (1 / 4)))).
    simpl. lia.
  - apply (proj2 (calc_total_infected_degenerate
                    (System.mk (State.mk (89 / 90) (1 / 90) 0) 3 3
                       (1 / 3) (1 / 4)))).
    reflexivity.
Defined.

(** ** The logistic curve and the two transforms *)

Lemma Rpower_pos (x y : R) : 0 < Rpower x y.
Proof. unfold Rpower. apply exp_pos. Qed.

Lemma logistic_lt (x y A B C M K Q nu : R) :
  0 < B -> 0 <= C -> 0 < Q -> 0 < nu -> A < K -> x < y ->
  Chap12.logistic x A B C M K Q nu < Chap12.logistic y A B C M K Q nu.
Proof.
  intros HB HC HQ Hnu HAK Hxy. unfold Chap12.logistic. cbv zeta.
  assert (Hexp : exp (- B * (y - M)) < exp (- B * (x - M)))
    by (apply exp_increasing; nra).
  assert (Hey := exp_pos (- B * (y - M))).
  assert (Hpow : Rpower (C + Q * exp (- B * (y - M))) (1 / nu) <
                 Rpower (C + Q * exp (- B * (x - M))) (1 / nu)).
  { apply Rlt_Rpower_l; [apply Rdiv_lt_0_compat; lra|]. split; nra. }
  assert (Hpy := Rpower_pos (C + Q * exp (- B * (y - M))) (1 / nu)).
  apply Rplus_lt_compat_l. unfold Rdiv.
  apply Rmult_lt_compat_l; [lra|].
  now apply Rinv_0_lt_contravar.
Qed.

Lemma logistic_bounds (x A B C M K Q nu : R) :
  0 < C -> 0 < Q -> 0 < nu -> A < K ->
  A < Chap12.logistic x A B C M K Q nu < A + (K - A) / Rpower C (1 / nu).
Proof.
  intros HC HQ Hnu HAK. unfold Chap12.logistic. cbv zeta.
  assert (He := exp_pos (- B * (x - M))).
  assert (Hp := Rpower_pos (C + Q * exp (- B * (x - M))) (1 / nu)).
  assert (Hc := Rpower_pos C (1 / nu)).
  assert (Hpow : Rpower C (1 / nu) <
                 Rpower (C + Q * exp (- B * (x - M))) (1 / nu)).
  { apply Rlt_Rpower_l; [apply Rdiv_lt_0_compat; lra|]. split; nra. }
  split.
  - assert (0 < (K - A) / Rpower (C + Q * exp (- B * (x - M))) (1 / nu))
      by (apply Rdiv_lt_0_compat; lra).
    lra.
  - apply Rplus_lt_compat_l. unfold Rdiv.
    apply Rmult_lt_compat_l; [lra|].
    now apply Rinv_0_lt_contravar.
Qed.

(** X13: [logistic] with a positive steepness [B], positive [C], [Q] and
    [nu], and [A < K] is strictly increasing in [x] and stays strictly
    between its lower bound [A] and [A + (K - A) / C ** (1 / nu)]. *)
Theorem logistic_increasing (x y A B C M K Q nu : R) :
  0 < B -> 0 < C -> 0 < Q -> 0 < nu -> A < K -> x < y ->
  Chap12.logistic x A B C M K Q nu < Chap12.logistic y A B C M K Q nu /\
  A < Chap12.logistic x A B C M K Q nu /\
  Chap12.logistic y A B C M K Q nu < A + (K - A) / Rpower C (1 / nu).
Proof.
  intros HB HC HQ Hnu HAK Hxy. split; [|split].
  - apply logistic_lt; lra.
  - now apply logistic_bounds.
  - now apply logistic_bounds.
Qed.

Lemma logistic_increasing_witness :
  Chap12.logistic 0 0 1 1 0 1 1 1 < Chap12.logistic 1 0 1 1 0 1 1 1.
Proof.
  apply (logistic_increasing 0 1 0 1 1 0 1 1 1); lra.
Defined.

Lemma compute_factor_lt (s1 s2 : R) :
  s1 < s2 -> Chap12.compute_factor s1 < Chap12.compute_factor s2.
Proof.
  intros Hlt. unfold Chap12.compute_factor, Chap12.logistic_A,
    Chap12.logistic_C, Chap12.logistic_Q, Chap12.logistic_nu.
  apply logistic_lt; lra.
Qed.

(** X14: the reduction [compute_factor] grows strictly with the spending, is
    one half of its maximum 0.2 at 500 dollars, and is symmetric about this
    point: the reductions at [500 + d] and [500 - d] add up to 0.2. *)
Theorem compute_factor_shape (s1 s2 d : R) :
  s1 < s2 ->
  Chap12.compute_factor s1 < Chap12.compute_factor s2 /\
  Chap12.compute_factor 500 = 0.1 /\
  Chap12.compute_factor (500 + d) + Chap12.compute_factor (500 - d) = 0.2.
Proof.
  intros Hlt. split; [now apply compute_factor_lt|]. split.
  - rewrite compute_factor_closed.
    replace (- (0.01 * (500 - 500))) with 0 by lra.
    rewrite exp_0. lra.
  - rewrite !compute_factor_closed.
    replace (- (0.01 * (500 + d - 500))) with (- (0.01 * d)) by lra.
    replace (- (0.01 * (500 - d - 500))) with (0.01 * d) by lra.
    rewrite exp_Ropp.
    assert (He := exp_pos (0.01 * d)).
    field. split; lra.
Qed.

Lemma compute_factor_shape_witness :
  Chap12.compute_factor 0 < Chap12.compute_factor 1200.
Proof.
  apply (compute_factor_shape 0 1200 0). lra.
Defined.

(** X15: on a System with a positive contact rate, [add_hand_washing]
    lowers beta, the more the higher the spending, and never below 80% of
    what it was. *)
Theorem add_hand_washing_monotone (system : System.t) (s1 s2 : R) :
  0 < System.beta system ->
  s1 < s2 ->
  System.beta (Chap12.add_hand_washing system s2) <
    System.beta (Chap12.add_hand_washing system s1) /\
  System.beta (Chap12.add_hand_washing system s1) < System.beta system /\
  0.8 * System.beta system <
    System.beta (Chap12.add_hand_washing system s2).
Proof.
  intros Hb Hlt. unfold Chap12.add_hand_washing. cbv zeta.
  cbn [System.beta].
  assert (H := compute_factor_lt s1 s2 Hlt).
  assert (H1 := compute_factor_bounds s1).
  assert (H2 := compute_factor_bounds s2).
  repeat split; nra.
Qed.

Lemma add_hand_washing_monotone_witness :
  System.beta (Chap12.add_hand_washing
                 (Chap12.make_system Chap12.beta Chap12.gamma) 1200) <
  System.beta (Chap12.add_hand_washing
                 (Chap12.make_system Chap12.beta Chap12.gamma) 0).
Proof.
  apply (add_hand_washing_monotone
           (Chap12.make_system Chap12.beta Chap12.gamma) 0 1200).
  - unfold Chap12.beta, Chap12.tc. simpl. lra.
  - lra.
Defined.

Lemma System_eq (i i' : State.t) (a a' b b' : Z) (x x' y y' : R) :
  i = i' -> a = a' -> b = b' -> x = x' -> y = y' ->
  System.mk i a b x y = System.mk i' a' b' x' y'.
Proof. intros; subst; reflexivity. Qed.

(** X16: how the transforms compose.  Immunizing a fraction [f] and then a
    fraction [g] is immunizing [f + g]; immunizing [f] and then [- f] gives
    the System back; and [add_immunization] and [add_hand_washing] can be
    applied in either order. *)
Theorem transforms_compose (system : System.t) (f g spending : R) :
  Chap12.add_immunization (Chap12.add_immunization system f) g =
    Chap12.add_immunization system (f + g) /\
  Chap12.add_immunization (Chap12.add_immunization system f) (- f) = system /\
  Chap12.add_hand_washing (Chap12.add_immunization system f) spending =
    Chap12.add_immunization (Chap12.add_hand_washing system spending) f.
Proof.
  destruct system as [[s i r] a b x y].
  unfold Chap12.add_immunization, Chap12.add_hand_washing. simpl.
  repeat split; apply System_eq; auto; apply State_eq; ring.
Qed.

(** ** More on the sweeps *)

Lemma summary_unfold (sys : System.t) (total : R) :
  (results <- Chap12.run_simulation sys Chap12.update_func ;;
   Chap12.calc_total_infected results sys) = Some total ->
  exists results s0 s_end,
    Chap12.run_simulation sys Chap12.update_func = Some results /\
    TimeFrame.S_at (System.t0 sys) results = Some s0 /\
    TimeFrame.S_at (System.t_end sys) results = Some s_end /\
    total = s0 - s_end.
Proof.
  destruct (Chap12.run_simulation sys Chap12.update_func) as [results|];
    cbn [bind]; [|discriminate].
  unfold Chap12.calc_total_infected.
  destruct (TimeFrame.S_at (System.t0 sys) results) as [s0|] eqn:H0;
    cbn [bind]; [|discriminate].
  destruct (TimeFrame.S_at (System.t_end sys) results) as [s_end|] eqn:Hend;
    cbn [bind]; [|discriminate].
  intros H. injection H as <-. exists results, s0, s_end. auto.
Qed.

Lemma summary_range (sys : System.t) :
  0 <= System.beta sys <= 1 ->
  0 <= System.gamma sys <= 1 ->
  valid_state (System.init sys) ->
  (System.t0 sys <= System.t_end sys)%Z ->
  exists total,
    (results <- Chap12.run_simulation sys Chap12.update_func ;;
     Chap12.calc_total_infected results sys) = Some total /\
    0 <= total <= State.S (System.init sys).
Proof.
  intros Hb Hg Hv Hle.
  destruct (calc_total_infected_range sys Hb Hg Hv Hle)
    as (frame & total & H12 & Htotal & Hrange).
  exists total. rewrite H12. cbn [bind]. auto.
Qed.

Lemma get_Some_In (k v : R) (s : SweepSeries.t) :
  SweepSeries.get k s = Some v -> In k (SweepSeries.keys s).
Proof.
  unfold SweepSeries.keys.
  induction s as [|[k1 v1] s IH]; simpl; [discriminate|].
  destruct (Req_dec_T k1 k); auto.
Qed.

(** The System that [sweep_doses] builds for a number of doses. *)
Lemma doses_system (doses : R) :
  Chap12.add_hand_washing
    (Chap12.add_immunization (Chap12.make_system Chap12.beta Chap12.gamma)
       (doses / Chap12.num_students))
    (Chap12.budget - doses * Chap12.price_per_dose) =
  System.mk (State.mk ((89 - doses) / 90) (1 / 90) (doses / 90)) 0 98
    (1 / 3 * (1 - Chap12.compute_factor (1200 - doses * 100))) (1 / 4).
Proof.
  rewrite make_system_12.
  unfold Chap12.add_hand_washing, Chap12.add_immunization. cbv zeta.
  cbn [System.init System.t0 System.t_end System.beta System.gamma
       State.S State.I State.R].
  unfold Chap12.num_students, Chap12.budget, Chap12.price_per_dose,
    Chap12.beta, Chap12.gamma, Chap12.tc, Chap12.tr.
  apply System_eq; auto. apply State_eq; lra.
Qed.

Lemma hand_washing_system (spending : R) :
  Chap12.add_hand_washing (Chap12.make_system Chap12.beta Chap12.gamma)
    spending =
  System.mk (State.mk (89 / 90) (1 / 90) 0) 0 98
    (1 / 3 * (1 - Chap12.compute_factor spending)) (1 / 4).
Proof.
  rewrite make_system_12. reflexivity.
Qed.

Lemma doses_total_some (doses : R) :
  exists total, doses_total doses = Some total.
Proof.
  unfold doses_total. cbv zeta.
  destruct (calc_total_infected_some Chap12.update_func
              (Chap12.add_hand_washing
                 (Chap12.add_immunization
                    (Chap12.make_system Chap12.beta Chap12.gamma)
                    (doses / Chap12.num_students))
                 (Chap12.budget - doses * Chap12.price_per_dose)))
    as (results & total & Hrun & Htotal).
  - simpl. lia.
  - exists total. rewrite Hrun. exact Htotal.
Qed.

Lemma sweep_doses_loop_record_all (l : list R) (sw : SweepSeries.t) :
  Chap12.sweep_doses_loop l sw = record_all doses_total l sw.
Proof.
  revert sw. induction l as [|x l IH]; intros sw; [reflexivity|].
  cbn [Chap12.sweep_doses_loop record_all].
  unfold doses_total. cbv zeta.
  destruct (Chap12.run_simulation _ _) as [results|]; cbn [bind];
    [|reflexivity].
  destruct (Chap12.calc_total_infected _ _) as [total|]; cbn [bind];
    [|reflexivity].
  apply IH.
Qed.

Lemma doses_total_range (doses : R) :
  0 <= doses <= 89 ->
  exists total,
    doses_total doses = Some total /\ 0 <= total <= (89 - doses) / 90.
Proof.
  intros Hd. unfold doses_total. cbv zeta. rewrite doses_system.
  assert (Hf := compute_factor_bounds (1200 - doses * 100)).
  destruct (summary_range
              (System.mk (State.mk ((89 - doses) / 90) (1 / 90) (doses / 90))
                 0 98
                 (1 / 3 * (1 - Chap12.compute_factor (1200 - doses * 100)))
                 (1 / 4)))
    as (total & Htotal & Hrange).
  - cbn [System.beta]. nra.
  - cbn [System.gamma]. lra.
  - unfold valid_state, State_sum. cbn [System.init State.S State.I State.R].
    lra.
  - cbn [System.t0 System.t_end]. lia.
  - exists total. split; [exact Htotal|exact Hrange].
Qed.

Lemma hand_washing_total_range (spending : R) :
  exists total,
    hand_washing_total spending = Some total /\ 0 <= total <= 89 / 90.
Proof.
  unfold hand_washing_total. cbv zeta. rewrite hand_washing_system.
  assert (Hf := compute_factor_bounds spending).
  destruct (summary_range
              (System.mk (State.mk (89 / 90) (1 / 90) 0) 0 98
                 (1 / 3 * (1 - Chap12.compute_factor spending)) (1 / 4)))
    as (total & Htotal & Hrange).
  - cbn [System.beta]. nra.
  - cbn [System.gamma]. lra.
  - unfold valid_state, State_sum. cbn [System.init State.S State.I State.R].
    lra.
  - cbn [System.t0 System.t_end]. lia.
  - exists total. split; [exact Htotal|exact Hrange].
Qed.

Lemma total_infected_range (beta gamma : R) :
  0 <= beta <= 1 -> 0 <= gamma <= 1 ->
  exists total,
    total_infected beta gamma = Some total /\ 0 <= total <= 89 / 90.
Proof.
  intros Hb Hg. unfold total_infected. cbv zeta. rewrite make_system_14.
  destruct (calc_total_infected_range_14
              (System.mk (State.mk (89 / 90) (1 / 90) 0) 0 98 beta gamma))
    as (frame & total & Hrun & Htotal & Hrange).
  - exact Hb.
  - exact Hg.
  - unfold valid_state, State_sum. cbn [System.init State.S State.I State.R].
    lra.
  - cbn [System.t0 System.t_end]. lia.
  - exists total. rewrite Hrun. cbn [bind]. split; [exact Htotal|exact Hrange].
Qed.

(** The sweep loop from the empty series: what can be read back. *)
Lemma record_all_get (f : R -> option R) (l : list R) (sw : SweepSeries.t) :
  (forall x, In x l -> exists v, f x = Some v) ->
  record_all f l SweepSeries.empty = Some sw ->
  forall k v, SweepSeries.get k sw = Some v -> In k l /\ f k = Some v.
Proof.
  intros Hf Hrun k v Hget.
  destruct (record_all_spec f l Hf SweepSeries.empty)
    as (sw' & Hrun' & _ & Hin & Hout).
  rewrite Hrun in Hrun'. injection Hrun' as <-.
  destruct (in_dec Req_dec_T k l) as [Hk|Hk].
  - split; [exact Hk|]. rewrite <- Hin by assumption. exact Hget.
  - rewrite Hout in Hget by assumption. discriminate.
Qed.

(** X17: [sweep_doses] always returns a series.  Its keys are the numbers
    of doses of the input in the order of their first occurrence, and the
    entry of a number of doses is S at [t0] minus S at [t_end] of the run of
    the System built for it alone: [make_system], then immunization of
    [doses / num_students], then hand washing paid with what the doses leave
    of the budget.  The empty input gives the empty series. *)
Theorem sweep_doses_entries (dose_array : list R) :
  exists sweep,
    Chap12.sweep_doses dose_array = Some sweep /\
    SweepSeries.keys sweep = first_occurrences dose_array /\
    (forall doses, In doses dose_array ->
       let fraction := doses / Chap12.num_students in
       let spending := Chap12.budget - doses * Chap12.price_per_dose in
       let system :=
         Chap12.add_hand_washing
           (Chap12.add_immunization
              (Chap12.make_system Chap12.beta Chap12.gamma) fraction)
           spending in
       exists results s0 s_end,
         Chap12.run_simulation system Chap12.update_func = Some results /\
         TimeFrame.S_at (System.t0 system) results = Some s0 /\
         TimeFrame.S_at (System.t_end system) results = Some s_end /\
         SweepSeries.get doses sweep = Some (s0 - s_end)) /\
    (dose_array = [] -> sweep = []).
Proof.
  destruct (record_all_spec doses_total dose_array
              (fun x _ => doses_total_some x) SweepSeries.empty)
    as (sweep & Hrun & Hkeys & Hin & _).
  exists sweep. split; [|split; [exact Hkeys|split]].
  - unfold Chap12.sweep_doses. cbv zeta.
    now rewrite sweep_doses_loop_record_all.
  - intros doses Hd. cbv zeta.
    destruct (doses_total_some doses) as [total Htotal].
    destruct (summary_unfold _ total Htotal)
      as (results & s0 & s_end & Hres & H0 & Hend & ->).
    exists results, s0, s_end.
    split; [exact Hres|]. split; [exact H0|]. split; [exact Hend|].
    rewrite Hin by assumption. exact Htotal.
  - intros ->. simpl in Hrun. injection Hrun as <-. reflexivity.
Qed.

Lemma sweep_doses_entries_witness :
  exists sweep,
    Chap12.sweep_doses [0; 6; 12] = Some sweep /\
    SweepSeries.keys sweep = first_occurrences [0; 6; 12] /\
    exists total, SweepSeries.get 6 sweep = Some total.
Proof.
  destruct (sweep_doses_entries [0; 6; 12])
    as (sweep & Hrun & Hkeys & Hget & _).
  destruct (Hget 6) as (results & s0 & s_end & _ & _ & _ & Hentry).
  - simpl. auto.
  - exists sweep. split; [exact Hrun|]. split; [exact Hkeys|].
    exists (s0 - s_end). exact Hentry.
Defined.

(** X18: chap14's [sweep_beta] always returns a series.  Its keys are the
    values of [beta_array] in the order of their first occurrence, the entry
    of a beta is S at [t0] minus S at [t_end] of the run of
    [make_system(beta, gamma)], and the empty input gives the empty
    series. *)
Theorem sweep_beta_entries (beta_array : list R) (gamma : R) :
  exists series,
    Chap14.sweep_beta beta_array gamma = Some series /\
    SweepSeries.keys series = first_occurrences beta_array /\
    (forall beta, In beta beta_array ->
       let system := Chap14.make_system beta gamma in
       exists results s0 s_end,
         Chap14.run_simulation system Chap14.update_func = Some results /\
         TimeFrame.S_at (System.t0 system) results = Some s0 /\
         TimeFrame.S_at (System.t_end system) results = Some s_end /\
         SweepSeries.get beta series = Some (s0 - s_end)) /\
    (beta_array = [] -> series = []).
Proof.
  destruct (sweep_beta_spec beta_array gamma) as (series & Hs & Hkeys & Hget).
  exists series. split; [exact Hs|]. split; [exact Hkeys|]. split.
  - intros beta Hbeta. cbv zeta.
    destruct (Hget beta Hbeta) as (total & Htotal & Hentry).
    destruct (total_infected_unfold beta gamma total Htotal)
      as (results & s0 & s_end & Hres & H0 & Hend & ->).
    exists results, s0, s_end. auto.
  - intros ->. unfold Chap14.sweep_beta in Hs. simpl in Hs.
    injection Hs as <-. reflexivity.
Qed.

Lemma sweep_beta_entries_witness :
  exists series,
    Chap14.sweep_beta [1 / 10; 1 / 2; 9 / 10] (1 / 4) = Some series /\
    exists total, SweepSeries.get (1 / 2) series = Some total.
Proof.
  destruct (sweep_beta_entries [1 / 10; 1 / 2; 9 / 10] (1 / 4))
    as (series & Hs & _ & Hget & _).
  destruct (Hget (1 / 2)) as (results & s0 & s_end & _ & _ & _ & Hentry).
  - simpl. auto.
  - exists series. split; [exact Hs|]. exists (s0 - s_end). exact Hentry.
Defined.

(** X19: every total that [sweep_hand_washing] records lies between 0 and
    89/90, the initial susceptible fraction, whatever the spending levels
    are; nothing is recorded under a value that is not in the input. *)
Theorem sweep_hand_washing_range (spending_array : list R) :
  exists sweep,
    Chap12.sweep_hand_washing spending_array = Some sweep /\
    forall spending total,
      SweepSeries.get spending sweep = Some total ->
      In spending spending_array /\ 0 <= total <= 89 / 90.
Proof.
  destruct (record_all_spec hand_washing_total spending_array
              (fun x _ => hand_washing_total_some x) SweepSeries.empty)
    as (sweep & Hrun & _).
  exists sweep. split.
  - unfold Chap12.sweep_hand_washing. cbv zeta.
    now rewrite sweep_hand_washing_loop_record_all.
  - intros spending total Hget.
    destruct (record_all_get hand_washing_total spending_array sweep
                (fun x _ => hand_washing_total_some x) Hrun _ _ Hget)
      as [Hin Htotal].
    split; [exact Hin|].
    destruct (hand_washing_total_range spending) as (total' & Ht' & Hrange).
    congruence.
Qed.

Lemma sweep_hand_washing_range_witness :
  exists sweep,
    Chap12.sweep_hand_washing [0; 1200] = Some sweep /\
    forall total, SweepSeries.get 1200 sweep = Some total ->
                  0 <= total <= 89 / 90.
Proof.
  destruct (sweep_hand_washing_range [0; 1200]) as (sweep & Hrun & Hrange).
  exists sweep. split; [exact Hrun|].
  intros total Hget. exact (proj2 (Hrange 1200 total Hget)).
Defined.

(** X20: a total that [sweep_doses] records for a number of doses between 0
    and 89 lies between 0 and [(89 - doses) / 90], the susceptible fraction
    left after the immunization. *)
Theorem sweep_doses_range (dose_array : list R) :
  exists sweep,
    Chap12.sweep_doses dose_array = Some sweep /\
    forall doses total,
      0 <= doses <= 89 ->
      SweepSeries.get doses sweep = Some total ->
      0 <= total <= (89 - doses) / 90.
Proof.
  destruct (record_all_spec doses_total dose_array
              (fun x _ => doses_total_some x) SweepSeries.empty)
    as (sweep & Hrun & _).
  exists sweep. split.
  - unfold Chap12.sweep_doses. cbv zeta.
    now rewrite sweep_doses_loop_record_all.
  - intros doses total Hd Hget.
    destruct (record_all_get doses_total dose_array sweep
                (fun x _ => doses_total_some x) Hrun _ _ Hget)
      as [_ Htotal].
    destruct (doses_total_range doses Hd) as (total' & Ht' & Hrange).
    congruence.
Qed.

Lemma sweep_doses_range_witness :
  exists sweep,
    Chap12.sweep_doses [0; 6; 12] = Some sweep /\
    forall total, SweepSeries.get 6 sweep = Some total ->
                  0 <= total <= (89 - 6) / 90.
Proof.
  destruct (sweep_doses_range [0; 6; 12]) as (sweep & Hrun & Hrange).
  exists sweep. split; [exact Hrun|].
  intros total Hget. apply (Hrange 6 total); [lra|exact Hget].
Defined.

(** X21: for a recovery rate between 0 and 1, every total that chap14's
    [sweep_beta] records under a contact rate between 0 and 1 lies between
    0 and 89/90. *)
Theorem sweep_beta_range (beta_array : list R) (gamma : R) :
  0 <= gamma <= 1 ->
  exists series,
    Chap14.sweep_beta beta_array gamma = Some series /\
    forall beta total,
      0 <= beta <= 1 ->
      SweepSeries.get beta series = Some total ->
      0 <= total <= 89 / 90.
Proof.
  intros Hg.
  destruct (record_all_spec (fun beta => total_infected beta gamma) beta_array
              (fun x _ => total_infected_some x gamma) SweepSeries.empty)
    as (series & Hrun & _).
  exists series. split.
  - unfold Chap14.sweep_beta. cbv zeta.
    now rewrite sweep_beta_loop_record_all.
  - intros beta total Hb Hget.
    destruct (record_all_get (fun beta => total_infected beta gamma)
                beta_array series
                (fun x _ => total_infected_some x gamma) Hrun _ _ Hget)
      as [_ Htotal].
    simpl in Htotal.
    destruct (total_infected_range beta gamma Hb Hg)
      as (total' & Ht' & Hrange).
    congruence.
Qed.

Lemma sweep_beta_range_witness :
  exists series,
    Chap14.sweep_beta [1 / 10; 1 / 2; 9 / 10] (1 / 4) = Some series /\
    forall total, SweepSeries.get (1 / 2) series = Some total ->
                  0 <= total <= 89 / 90.
Proof.
  destruct (sweep_beta_range [1 / 10; 1 / 2; 9 / 10] (1 / 4))
    as (series & Hs & Hrange).
  - lra.
  - exists series. split; [exact Hs|].
    intros total Hget. apply (Hrange (1 / 2) total); [lra|exact Hget].
Defined.

Lemma doses_total_zero : doses_total 0 = hand_washing_total 1200.
Proof.
  unfold doses_total, hand_washing_total. cbv zeta.
  rewrite doses_system, hand_washing_system.
  replace ((89 - 0) / 90) with (89 / 90) by lra.
  replace (0 / 90) with 0 by lra.
  replace (1200 - 0 * 100) with 1200 by lra.
  reflexivity.
Qed.

(** X22: with no dose bought the dose sweep is the hand-washing sweep at the
    full budget: the entry of [sweep_doses] for 0 doses is the entry of
    [sweep_hand_washing] for a spending of 1200, whatever else the two
    inputs hold. *)
Theorem sweep_doses_zero (dose_array spending_array : list R) :
  In 0 dose_array ->
  In 1200 spending_array ->
  exists by_doses by_spending total,
    Chap12.sweep_doses dose_array = Some by_doses /\
    Chap12.sweep_hand_washing spending_array = Some by_spending /\
    SweepSeries.get 0 by_doses = Some total /\
    SweepSeries.get 1200 by_spending = Some total.
Proof.
  intros Hd Hs.
  destruct (record_all_spec doses_total dose_array
              (fun x _ => doses_total_some x) SweepSeries.empty)
    as (by_doses & Hrun_d & _ & Hin_d & _).
  destruct (record_all_spec hand_washing_total spending_array
              (fun x _ => hand_washing_total_some x) SweepSeries.empty)
    as (by_spending & Hrun_s & _ & Hin_s & _).
  destruct (hand_washing_total_some 1200) as [total Htotal].
  exists by_doses, by_spending, total.
  split; [|split; [|split]].
  - unfold Chap12.sweep_doses. cbv zeta.
    now rewrite sweep_doses_loop_record_all.
  - unfold Chap12.sweep_hand_washing. cbv zeta.
    now rewrite sweep_hand_washing_loop_record_all.
  - rewrite Hin_d by assumption. now rewrite doses_total_zero.
  - rewrite Hin_s by assumption. exact Htotal.
Qed.

Lemma sweep_doses_zero_witness :
  exists by_doses by_spending total,
    Chap12.sweep_doses [0; 12] = Some by_doses /\
    Chap12.sweep_hand_washing [0; 1200] = Some by_spending /\
    SweepSeries.get 0 by_doses = Some total /\
    SweepSeries.get 1200 by_spending = Some total.
Proof.
  apply (sweep_doses_zero [0; 12] [0; 1200]); simpl; auto.
Defined.

(** ** The cell that prints the dose sweep *)

Lemma calc_total_infected_times (results : TimeFrame.t) (sys sys' : System.t) :
  System.t0 sys = System.t0 sys' ->
  System.t_end sys = System.t_end sys' ->
  Chap12.calc_total_infected results sys =
  Chap12.calc_total_infected results sys'.
Proof.
  intros H0 Hend. unfold Chap12.calc_total_infected. now rewrite H0, Hend.
Qed.

Lemma print_doses_step (results : TimeFrame.t) (doses : R) :
  Chap12.calc_total_infected results
    (Chap12.add_hand_washing
       (Chap12.add_immunization (Chap12.make_system Chap12.beta Chap12.gamma)
          (doses / Chap12.num_students))
       (Chap12.budget - doses * Chap12.price_per_dose)) =
  Chap12.calc_total_infected results
    (Chap12.make_system Chap12.beta Chap12.gamma).
Proof. apply calc_total_infected_times; reflexivity. Qed.

Lemma print_doses_out (results : TimeFrame.t) (total : R) :
  Chap12.calc_total_infected results
    (Chap12.make_system Chap12.beta Chap12.gamma) = Some total ->
  forall dose_array out,
    Chap12.print_doses results dose_array out =
      (out ++
       map (fun doses =>
              (doses, (89 - doses) / 90,
               1 / 3 * (1 - Chap12.compute_factor (1200 - doses * 100)),
               total))
         dose_array,
       true).
Proof.
  intros Htotal. induction dose_array as [|doses rest IH]; intros out.
  - simpl. now rewrite app_nil_r.
  - cbn [Chap12.print_doses]. cbv zeta.
    rewrite print_doses_step, Htotal, doses_system.
    rewrite run_simulation_12_orbit. cbv beta iota.
    cbn [System.init System.beta State.S].
    rewrite IH, <- app_assoc. reflexivity.
Qed.

(** X23: the cell that prints the dose sweep never assigns [results] (its
    statement [results, run_simulation(system, update_func)] only builds a
    pair), so the total it prints is computed from the frame bound before the
    loop and is the same on every line, whatever the number of doses; the
    other three columns do follow the doses.  When this earlier frame has no
    row for day 0 or day 98, the first iteration raises and nothing is
    printed. *)
Theorem print_doses_stale (results : TimeFrame.t) (dose_array : list R) :
  (forall total,
     Chap12.calc_total_infected results
       (Chap12.make_system Chap12.beta Chap12.gamma) = Some total ->
     Chap12.print_doses results dose_array [] =
       (map (fun doses =>
               (doses, (89 - doses) / 90,
                1 / 3 * (1 - Chap12.compute_factor (1200 - doses * 100)),
                total))
          dose_array,
        true)) /\
  (Chap12.calc_total_infected results
     (Chap12.make_system Chap12.beta Chap12.gamma) = None ->
   dose_array <> [] ->
   Chap12.print_doses results dose_array [] = ([], false)).
Proof.
  split.
  - intros total Htotal. now rewrite (print_doses_out results total Htotal).
  - intros Hnone Hne. destruct dose_array as [|doses rest]; [congruence|].
    cbn [Chap12.print_doses]. cbv zeta.
    rewrite print_doses_step, Hnone, run_simulation_12_orbit.
    reflexivity.
Qed.

Lemma print_doses_stale_witness :
  Chap12.print_doses [(0%Z, State.mk 1 0 0); (98%Z, State.mk (1 / 2) 0 (1 / 2))]
    [0; 12] [] =
  ([(0, (89 - 0) / 90,
     1 / 3 * (1 - Chap12.compute_factor (1200 - 0 * 100)), 1 - 1 / 2);
    (12, (89 - 12) / 90,
     1 / 3 * (1 - Chap12.compute_factor (1200 - 12 * 100)), 1 - 1 / 2)],
   true).
Proof.
  apply (proj1 (print_doses_stale
                  [(0%Z, State.mk 1 0 0); (98%Z, State.mk (1 / 2) 0 (1 / 2))]
                  [0; 12])).
  reflexivity.
Defined.

(** ** The analytic curve of chap14 *)

Lemma ln_lt_minus_1 (s : R) : 0 < s -> s <> 1 -> ln s < s - 1.
Proof.
  intros Hs Hne.
  assert (Hln : ln s <> 0).
  { intros H. apply Hne. rewrite <- (exp_ln s Hs), H. apply exp_0. }
  assert (H := exp_ineq1 (ln s) Hln). rewrite exp_ln in H by assumption. lra.
Qed.

Lemma frac_infected_series_In (s_inf_array : list R) (c f : R) :
  In (c, f) (Chap14.frac_infected_series s_inf_array) ->
  exists s_inf,
    In s_inf s_inf_array /\ c = ln s_inf / (s_inf - 1) /\ f = 1 - s_inf.
Proof.
  unfold Chap14.frac_infected_series, Chap14.c_array, Chap14.frac_infected.
  induction s_inf_array as [|s l IH]; simpl; [tauto|].
  intros [H|H].
  - injection H as <- <-. exists s. auto.
  - destruct (IH H) as (s' & Hin & Hc & Hf). exists s'. auto.
Qed.

(** X24: the analytic curve that chap14 plots against the sweep.  For final
    susceptible fractions strictly between 0 and 1 the series has one point
    per fraction, every point has a contact number [c] above 1 and an
    infected fraction [f] strictly between 0 and 1, and the two satisfy the
    final-size relation [1 - f = exp (- c f)]. *)
Theorem frac_infected_series_final_size (s_inf_array : list R) :
  (forall s_inf, In s_inf s_inf_array -> 0 < s_inf < 1) ->
  length (Chap14.frac_infected_series s_inf_array) = length s_inf_array /\
  forall c f, In (c, f) (Chap14.frac_infected_series s_inf_array) ->
    1 < c /\ 0 < f < 1 /\ 1 - f = exp (- c * f).
Proof.
  intros Hrange. split.
  - unfold Chap14.frac_infected_series, Chap14.c_array, Chap14.frac_infected.
    rewrite length_combine, !length_map. apply Nat.min_id.
  - intros c f Hin.
    destruct (frac_infected_series_In _ _ _ Hin) as (s & Hs & -> & ->).
    destruct (Hrange s Hs) as [H0 H1].
    assert (Hln := ln_lt_minus_1 s H0 ltac:(lra)).
    split; [|split; [lra|]].
    + apply Rmult_lt_reg_r with (1 - s); [lra|].
      replace (ln s / (s - 1) * (1 - s)) with (- ln s) by (field; lra).
      lra.
    + replace (- (ln s / (s - 1)) * (1 - s)) with (ln s) by (field; lra).
      rewrite exp_ln by assumption. lra.
Qed.

Lemma frac_infected_series_final_size_witness :
  1 < ln (1 / 2) / (1 / 2 - 1) /\
  1 - (1 - 1 / 2) = exp (- (ln (1 / 2) / (1 / 2 - 1)) * (1 - 1 / 2)).
Proof.
  destruct (frac_infected_series_final_size [1 / 2]) as [_ H].
  - intros s_inf [<-|[]]. lra.
  - destruct (H (ln (1 / 2) / (1 / 2 - 1)) (1 - 1 / 2)) as (Hc & _ & Hf).
    + simpl. left. reflexivity.
    + split; [exact Hc|exact Hf].
Defined.
